(** * Vision transformer for small datasets (vit.py): model construction
      pipeline and warmup-cosine schedule

    Shallow embedding of [vit.py].  Python integers are [Z], Python and
    TensorFlow floats are idealised as real numbers [R], except that the
    softmax keeps the underflow of the float32 exponential; Python objects
    are finite maps from attribute names to values, and raising code lives
    in an exception monad. *)

From Stdlib Require Import ZArith Reals Lra Lia String List.
From stdpp Require Import base option list gmap strings.
Import ListNotations.

Local Open Scope string_scope.
Local Open Scope list_scope.
Local Open Scope Z_scope.

(** ** Python runtime: exceptions, values, objects *)

Inductive exn : Type :=
| AttributeError (attr : string)
| ValueError (msg : string)
| TypeError (msg : string)
| InvalidArgumentError (msg : string)
| ZeroDivisionError (msg : string).

Inductive result (A : Type) : Type :=
| Ok (a : A)
| Raise (e : exn).
Arguments Ok {A} a.
Arguments Raise {A} e.

#[global] Instance result_ret : MRet result := fun _ a => Ok a.
#[global] Instance result_bind : MBind result := fun _ _ f r =>
  match r with
  | Ok a => f a
  | Raise e => Raise e
  end.

Definition returns {A} (r : result A) : Prop := exists a, r = Ok a.

(** Attribute values that the two classes of interest store on [self]. *)
Inductive value : Type :=
| VInt (z : Z)
| VFloat (r : R)
| VBool (b : bool)
| VReshape (rows : Z)          (* layers.Reshape((rows, -1)) *)
| VDense (units : Z)           (* layers.Dense(units = units) *)
| VLayerNorm (epsilon : R).    (* layers.LayerNormalization(epsilon = ...) *)

(** An object is its attribute dictionary. *)
Abbreviation object := (gmap string value).

Definition setattr (self : object) (name : string) (v : value) : object :=
  <[name := v]> self.

Definition getattr (self : object) (name : string) : result value :=
  match self !! name with
  | Some v => Ok v
  | None => Raise (AttributeError name)
  end.

Definition as_int (v : value) : result Z :=
  match v with
  | VInt z => Ok z
  | VBool b => Ok (if b then 1 else 0)
  | _ => Raise (TypeError "int expected")
  end.

Definition as_float (v : value) : result R :=
  match v with
  | VFloat r => Ok r
  | VInt z => Ok (IZR z)
  | _ => Raise (TypeError "float expected")
  end.

Definition as_bool (v : value) : result bool :=
  match v with
  | VBool b => Ok b
  | VInt z => Ok (negb (z =? 0))
  | _ => Raise (TypeError "bool expected")
  end.

Definition getattr_int (self : object) (name : string) : result Z :=
  getattr self name ≫= as_int.
Definition getattr_float (self : object) (name : string) : result R :=
  getattr self name ≫= as_float.
Definition getattr_bool (self : object) (name : string) : result bool :=
  getattr self name ≫= as_bool.

(** ** Warmup-cosine learning-rate schedule (class [warmupcosine]) *)

(** [warmupcosine.__init__]: stores its four arguments and the constant pi;
    nothing is compared or checked here. *)
Definition warmupcosine_init (learning_rate_base : R) (total_steps : Z)
    (warmup_learning_rate : R) (warmup_steps : Z) : result object :=
  let self : object := ∅ in
  let self := setattr self "learning_rate_base" (VFloat learning_rate_base) in
  let self := setattr self "total_steps" (VInt total_steps) in
  let self := setattr self "warmup_learning_rate" (VFloat warmup_learning_rate) in
  let self := setattr self "warmup_steps" (VInt warmup_steps) in
  let self := setattr self "pi" (VFloat PI) in
  Ok self.

(** [warmupcosine.__call__].  [tf.cast(step, tf.float32)] and [float(...)]
    are [IZR]; [tf.where] on a scalar condition is a conditional.  The
    tensor division does not raise on a zero divisor: when [total_steps]
    equals [warmup_steps] the cosine rate is not a number in the runtime,
    which the reals cannot express.  The value returned is that rate only at
    [step = total_steps = warmup_steps]; statements about returned values
    leave that step out. *)
Definition warmupcosine_call (self : object) (step : Z) : result R :=
  total_steps ← getattr_int self "total_steps";
  warmup_steps ← getattr_int self "warmup_steps";
  if total_steps <? warmup_steps
  then Raise (ValueError "Total Steps must be larger or equal to warmup steps")
  else
    pi ← getattr_float self "pi";
    warmup_steps ← getattr_int self "warmup_steps";
    total_steps ← getattr_int self "total_steps";
    warmup_steps' ← getattr_int self "warmup_steps";
    let cos_annealed_lr :=
      cos (pi * (IZR step - IZR warmup_steps) / IZR (total_steps - warmup_steps'))%R in
    learning_rate_base ← getattr_float self "learning_rate_base";
    let learning_rate := (0.5 * learning_rate_base * (1 + cos_annealed_lr))%R in
    warmup_steps ← getattr_int self "warmup_steps";
    learning_rate ←
      (if 0 <? warmup_steps then
         learning_rate_base ← getattr_float self "learning_rate_base";
         warmup_learning_rate ← getattr_float self "warmup_learning_rate";
         if Rlt_dec learning_rate_base warmup_learning_rate
         then Raise (ValueError "Base learning rate must be larger than warmup learning rate")
         else
           learning_rate_base ← getattr_float self "learning_rate_base";
           warmup_learning_rate ← getattr_float self "warmup_learning_rate";
           warmup_steps ← getattr_int self "warmup_steps";
           let slope := ((learning_rate_base - warmup_learning_rate) / IZR warmup_steps)%R in
           warmup_learning_rate ← getattr_float self "warmup_learning_rate";
           let warmup_rate := (slope * IZR step + warmup_learning_rate)%R in
           warmup_steps ← getattr_int self "warmup_steps";
           mret (if step <? warmup_steps then warmup_rate else learning_rate)
       else mret learning_rate);
    total_Steps ← getattr_int self "total_Steps";
    mret (if total_Steps <? step then 0%R else learning_rate).

(** The schedule as the training driver uses it: build, then query. *)
Definition rate (learning_rate_base : R) (total_steps : Z)
    (warmup_learning_rate : R) (warmup_steps : Z) (step : Z) : result R :=
  self ← warmupcosine_init learning_rate_base total_steps
           warmup_learning_rate warmup_steps;
  warmupcosine_call self step.

(** Parameters that trip neither of the two checks of the schedule. *)
Definition valid_schedule (learning_rate_base : R) (total_steps : Z)
    (warmup_learning_rate : R) (warmup_steps : Z) : Prop :=
  warmup_steps <= total_steps /\
  (0 < warmup_steps -> (warmup_learning_rate <= learning_rate_base)%R).

(** ** Tensor runtime: images and the [tf.image] operations used

    One sample of a batch is followed: every operation below acts on each
    image of a batch independently.  An image is rows of pixels, a pixel is
    its list of channel values. *)

Abbreviation pixel := (list R).
Abbreviation image := (list (list (list R))).
Abbreviation matrix := (list (list R)).

Definition height (img : image) : Z := Z.of_nat (length img).
Definition width (img : image) : Z :=
  match img with
  | [] => 0
  | row :: _ => Z.of_nat (length row)
  end.
Definition channels (img : image) : Z :=
  match img with
  | (px :: _) :: _ => Z.of_nat (length px)
  | _ => 0
  end.

(** [has_shape h w c img]: the image is a rectangular h x w x c array. *)
Definition has_shape (h w c : nat) (img : image) : Prop :=
  length img = h /\
  Forall (fun row => length row = w /\ Forall (fun px : pixel => length px = c) row) img.

(** [tf.image.crop_to_bounding_box]: argument checks, then a slice. *)
Definition crop_to_bounding_box (img : image)
    (offset_height offset_width target_height target_width : Z) : result image :=
  if offset_width <? 0 then Raise (ValueError "offset_width must be >= 0.")
  else if offset_height <? 0 then Raise (ValueError "offset_height must be >= 0.")
  else if target_width <=? 0 then Raise (ValueError "target_width must be > 0.")
  else if target_height <=? 0 then Raise (ValueError "target_height must be > 0.")
  else if width img <? target_width + offset_width
  then Raise (ValueError "width must be >= target + offset.")
  else if height img <? target_height + offset_height
  then Raise (ValueError "height must be >= target + offset.")
  else
    Ok (map (fun row => take (Z.to_nat target_width) (drop (Z.to_nat offset_width) row))
          (take (Z.to_nat target_height) (drop (Z.to_nat offset_height) img))).

(** [tf.image.pad_to_bounding_box]: argument checks, then zero padding. *)
Definition pad_to_bounding_box (img : image)
    (offset_height offset_width target_height target_width : Z) : result image :=
  let after_padding_width := target_width - offset_width - width img in
  let after_padding_height := target_height - offset_height - height img in
  if offset_height <? 0 then Raise (ValueError "offset_height must be >= 0")
  else if offset_width <? 0 then Raise (ValueError "offset_width must be >= 0")
  else if after_padding_width <? 0 then Raise (ValueError "width must be <= target - offset")
  else if after_padding_height <? 0 then Raise (ValueError "height must be <= target - offset")
  else
    let zero_px : pixel := replicate (Z.to_nat (channels img)) 0%R in
    let zero_row := replicate (Z.to_nat target_width) zero_px in
    Ok (replicate (Z.to_nat offset_height) zero_row
        ++ map (fun row => replicate (Z.to_nat offset_width) zero_px ++ row
                           ++ replicate (Z.to_nat after_padding_width) zero_px) img
        ++ replicate (Z.to_nat after_padding_height) zero_row).

(** [tf.concat(..., axis = -1)] of two images, then of a list. *)
Definition concat_channels2 (a b : image) : result image :=
  if (height a =? height b) && (width a =? width b)
  then Ok (zip_with (zip_with (@app R)) a b)
  else Raise (InvalidArgumentError "ConcatOp : Dimensions of inputs should match").

Fixpoint concat_channels (first : image) (rest : list image) : result image :=
  match rest with
  | [] => Ok first
  | b :: rest' => ab ← concat_channels2 first b; concat_channels ab rest'
  end.

(** [tf.image.extract_patches] with sizes = strides = [1, p, p, 1], rates 1
    and VALID padding: the p x p blocks in row-major order, each flattened
    row by row, pixel by pixel, channel by channel. *)
Definition patch_at (img : image) (p r c : nat) : list R :=
  concat (map (fun row => concat (take p (drop (c * p) row)))
              (take p (drop (r * p) img))).

Definition extract_patches (img : image) (size stride : Z) : result (list (list (list R))) :=
  if (size <=? 0) || (stride <=? 0)
  then Raise (InvalidArgumentError "sizes and strides must be positive")
  else
    let out_rows := Z.to_nat ((height img - size + stride) / stride) in
    let out_cols := Z.to_nat ((width img - size + stride) / stride) in
    Ok (map (fun r => map (fun c => patch_at img (Z.to_nat size) r c) (seq 0 out_cols))
            (seq 0 out_rows)).

(** ** Layers held by the tokenizer *)

(** Consecutive chunks of a flat buffer: [n] rows of [k] entries. *)
Fixpoint chunks (k n : nat) (flat : list R) : matrix :=
  match n with
  | O => []
  | S n' => take k flat :: chunks k n' (drop k flat)
  end.

(** [layers.Reshape((rows, -1))] on one sample: the element count must be a
    multiple of [rows]; the missing dimension is inferred. *)
Definition reshape_call (layer : value) (patches : list (list (list R))) : result matrix :=
  match layer with
  | VReshape rows =>
      let flat := concat (concat patches) in
      let total := Z.of_nat (length flat) in
      if (rows <=? 0) || negb (total mod rows =? 0)
      then Raise (ValueError "total size of new array must be unchanged")
      else Ok (chunks (Z.to_nat (total / rows)) (Z.to_nat rows) flat)
  | _ => Raise (TypeError "object is not callable")
  end.

Definition sum_R (l : list R) : R := foldr Rplus 0%R l.
Definition dot (u v : list R) : R := sum_R (zip_with Rmult u v).

(** Learned parameters, owned by the optimizer: a kernel and a bias per
    dense layer, a scale and an offset per normalisation layer. *)
Record dense_weights : Type :=
  { kernel : nat -> nat -> R;     (* input feature, unit *)
    bias : nat -> R }.
Record norm_weights : Type :=
  { gamma : nat -> R;
    beta : nat -> R }.

(** [layers.Dense(units)] on a sequence of vectors. *)
Definition dense_vector (w : dense_weights) (units : nat) (x : list R) : list R :=
  map (fun j => sum_R (imap (fun i xi => xi * kernel w i j) x) + bias w j)%R
      (seq 0 units).

Definition dense_call (layer : value) (w : dense_weights) (x : matrix) : result matrix :=
  match layer with
  | VDense units => Ok (map (dense_vector w (Z.to_nat units)) x)
  | _ => Raise (TypeError "object is not callable")
  end.

(** [layers.LayerNormalization(epsilon)] over the last axis. *)
Definition mean (x : list R) : R := (sum_R x / INR (length x))%R.
Definition variance (x : list R) : R :=
  mean (map (fun xi => (xi - mean x) * (xi - mean x))%R x).
Definition layer_norm_vector (epsilon : R) (w : norm_weights) (x : list R) : list R :=
  imap (fun i xi => (xi - mean x) / sqrt (variance x + epsilon) * gamma w i + beta w i)%R x.

Definition layer_norm_call (layer : value) (w : norm_weights) (x : matrix) : result matrix :=
  match layer with
  | VLayerNorm epsilon => Ok (map (layer_norm_vector epsilon w) x)
  | _ => Raise (TypeError "object is not callable")
  end.

(** ** Shifted-patch tokenizer (class [shiftedpatch]) *)

Definition layer_norm_eps : R := 1e-6.

(** [shiftedpatch.__init__].  Of the layer constructors only [Dense]
    inspects its argument (a negative unit count is refused). *)
Definition shiftedpatch_init (image_size patch_size num_patches projection_dim : Z)
    (vanilla : bool) : result object :=
  let self : object := ∅ in
  let self := setattr self "vanilla" (VBool vanilla) in
  let self := setattr self "image_size" (VInt image_size) in
  let self := setattr self "patch_size" (VInt patch_size) in
  let self := setattr self "haff_patch" (VInt (patch_size / 2)) in
  let self := setattr self "flatten_patches" (VReshape num_patches) in
  projection ← (if projection_dim <? 0
                then Raise (ValueError "Received an invalid value for `units`")
                else Ok (VDense projection_dim));
  let self := setattr self "projection" projection in
  let self := setattr self "layer_norm" (VLayerNorm layer_norm_eps) in
  Ok self.

(** [shiftedpatch.crop_shift_pad]. *)
Definition crop_shift_pad (self : object) (images : image) (mode : string) : result image :=
  '(crop_height, crop_width, shift_height, shift_width) ←
    (if String.eqb mode "left-up" then
       crop_height ← getattr_int self "half_patch";
       crop_width ← getattr_int self "half_patch";
       mret (crop_height, crop_width, 0, 0)
     else if String.eqb mode "left-down" then
       crop_width ← getattr_int self "half_patch";
       shift_height ← getattr_int self "half_patch";
       mret (0, crop_width, shift_height, 0)
     else if String.eqb mode "right-up" then
       crop_height ← getattr_int self "half_patch";
       shift_width ← getattr_int self "half_patch";
       mret (crop_height, 0, 0, shift_width)
     else
       shift_height ← getattr_int self "half_patch";
       shift_width ← getattr_int self "half_patch";
       mret (0, 0, shift_height, shift_width));
  image_size ← getattr_int self "image_size";
  half_patch ← getattr_int self "half_patch";
  let target_height := image_size - half_patch in
  image_size ← getattr_int self "image_size";
  half_patch ← getattr_int self "half_patch";
  let target_width := image_size - half_patch in
  crop ← crop_to_bounding_box images crop_height crop_width target_height target_width;
  target_height ← getattr_int self "image_size";
  target_width ← getattr_int self "image_size";
  pad_to_bounding_box crop shift_height shift_width target_height target_width.

(** The table of the specification: crop offsets (top, left) and pad
    offsets (top, left) of each shift direction, for a given half-patch
    size. *)
Definition shift_offsets (mode : string) (half : Z) : Z * Z * Z * Z :=
  if String.eqb mode "left-up" then (half, half, 0, 0)
  else if String.eqb mode "left-down" then (0, half, half, 0)
  else if String.eqb mode "right-up" then (half, 0, 0, half)
  else (0, 0, half, half).

(** The shift as the specification words it: crop to (size - half) squared
    at the crop offsets, pad to size squared at the pad offsets. *)
Definition shift_by_table (image_size half : Z) (images : image) (mode : string)
    : result image :=
  let '(crop_top, crop_left, pad_top, pad_left) := shift_offsets mode half in
  crop ← crop_to_bounding_box images crop_top crop_left
           (image_size - half) (image_size - half);
  pad_to_bounding_box crop pad_top pad_left image_size image_size.

(** A tokenizer whose half-patch size can also be read under the name that
    [crop_shift_pad] uses. *)
Definition with_half_patch (self : object) : object :=
  match self !! "haff_patch" with
  | Some half => setattr self "half_patch" half
  | None => self
  end.

(** Learned parameters of the tokenizer. *)
Record tokenizer_weights : Type :=
  { projection_weights : dense_weights;
    layer_norm_weights : norm_weights }.

(** [shiftedpatch.call]: returns the tokens and the raw patch grid. *)
Definition shiftedpatch_call (w : tokenizer_weights) (self : object) (images : image)
    : result (matrix * list (list (list R))) :=
  vanilla ← getattr_bool self "vanilla";
  images ←
    (if negb vanilla then
       left_up ← crop_shift_pad self images "left-up";
       left_down ← crop_shift_pad self images "left-down";
       right_up ← crop_shift_pad self images "right-up";
       right_down ← crop_shift_pad self images "right-down";
       concat_channels images [left_up; left_down; right_up; right_down]
     else mret images);
  size ← getattr_int self "patch_size";
  stride ← getattr_int self "patch_size";
  patches ← extract_patches images size stride;
  flatten_patches ← getattr self "flatten_patches";
  flat_patches ← reshape_call flatten_patches patches;
  vanilla ← getattr_bool self "vanilla";
  if negb vanilla then
    layer_norm ← getattr self "layer_norm";
    tokenz ← layer_norm_call layer_norm (layer_norm_weights w) flat_patches;
    projection ← getattr self "projection";
    tokenz ← dense_call projection (projection_weights w) tokenz;
    mret (tokenz, patches)
  else
    projection ← getattr self "projection";
    tokenz ← dense_call projection (projection_weights w) flat_patches;
    mret (tokenz, patches).

(** The tokenizer as the model builder uses it: build, then call. *)
Definition tokenize (w : tokenizer_weights)
    (image_size patch_size num_patches projection_dim : Z) (vanilla : bool)
    (images : image) : result (matrix * list (list (list R))) :=
  self ← shiftedpatch_init image_size patch_size num_patches projection_dim vanilla;
  shiftedpatch_call w self images.

(** ** Sample data *)

(** An all-zero image of side [s] with [c] channels. *)
Definition blank_image (s c : nat) : image := replicate s (replicate s (replicate c 0%R)).

(** A 2 x 2 image with one channel. *)
Definition sample_image : image := [[[1%R]; [2%R]]; [[3%R]; [4%R]]].

(** Unit normalisation weights, as freshly created. *)
Definition fresh_norm : norm_weights := {| gamma := fun _ => 1%R; beta := fun _ => 0%R |}.

(** All-zero dense weights. *)
Definition zero_dense : dense_weights := {| kernel := fun _ _ => 0%R; bias := fun _ => 0%R |}.

(** Weights of a tokenizer with a zero projection and a fresh normalisation. *)
Definition sample_weights : tokenizer_weights :=
  {| projection_weights := zero_dense; layer_norm_weights := fresh_norm |}.

(** ** Diagonal attention mask *)

(** [tf.eye(n)]: the float identity matrix. *)
Definition eye (n : Z) : matrix :=
  map (fun i => map (fun j => if Nat.eqb i j then 1%R else 0%R) (seq 0 (Z.to_nat n)))
      (seq 0 (Z.to_nat n)).

(** [tf.cast(x, tf.int8)]: truncation toward zero, wrapped to 8 bits. *)
Definition cast_int8 (x : R) : Z :=
  let t := if Rle_dec 0 x then Int_part x else - Int_part (- x) in
  (t + 128) mod 256 - 128.

(** [diag_attn_mask = tf.cast([1 - tf.eye(num_patches)], dtype = tf.int8)]:
    shape (1, num_patches, num_patches).  In module scope [num_patches] is a
    square, hence never negative. *)
Definition diag_attn_mask (num_patches : Z) : list (list (list Z)) :=
  let diag_attn_mask := map (map (fun e => 1 - e)%R) (eye num_patches) in
  map (map (map cast_int8)) [diag_attn_mask].

(** The mask seen by one sample: the leading axis of size one broadcasts. *)
Definition mask_of_sample (mask : list (list (list Z))) : list (list Z) :=
  hd [] mask.

(** ** Attention (class [multiheadattention]) *)

(** Modelled from the spec: the masked normalisation [_masked_softmax] of
    the base attention layer, which is not under src/.  Positions whose mask
    entry is 0 have a large negative constant added to their score, and each
    row of scores is then normalised into a probability distribution by the
    float32 softmax. *)
Definition large_negative : R := (-1e9)%R.

(** The largest entry of a row ([reduce_max]). *)
Definition max_R (x : list R) : R := foldr Rmax (hd 0%R x) x.

(** The float32 exponential: a result below 2^-150, half the smallest
    positive float32, is rounded to exactly 0; above that the rounding is
    left out. *)
Definition exp_float32 (x : R) : R :=
  if Rlt_dec (exp x) (/ 2 ^ 150) then 0%R else exp x.

(** The softmax of a row, computed as the runtime does: the largest entry
    is subtracted before the exponential. *)
Definition softmax (x : list R) : list R :=
  let shifted := map (fun xi => exp_float32 (xi - max_R x)) x in
  map (fun e => e / sum_R shifted)%R shifted.

Definition apply_mask_row (scores : list R) (mask : list Z) : list R :=
  zip_with (fun s b => s + (1 - IZR b) * large_negative)%R scores mask.

Definition masked_softmax (attention_scores : list matrix)
    (attention_mask : option (list (list (list Z)))) : list matrix :=
  match attention_mask with
  | None => map (map softmax) attention_scores
  | Some mask =>
      map (fun head => map softmax (zip_with apply_mask_row head (mask_of_sample mask)))
          attention_scores
  end.

(** The two einsum contractions of the attention layer.  Tensors of one
    sample are kept head-major: one (positions x key_dim) matrix per head. *)
Definition dot_product_equation (key query : list matrix) : list matrix :=
  zip_with (fun key_n query_n =>
              map (fun query_t => map (fun key_s => dot key_s query_t) key_n) query_n)
           key query.

Definition column (h : nat) (m : matrix) : list R := map (fun row => nth h row 0%R) m.

Definition combine_equation (scores value : list matrix) : list matrix :=
  zip_with (fun scores_n value_n =>
              map (fun scores_t =>
                     map (fun h => dot scores_t (column h value_n))
                         (seq 0 (length (hd [] value_n))))
                  scores_n)
           scores value.

Definition scale_queries (c : R) (query : list matrix) : list matrix :=
  map (map (map (fun q => q * c)%R)) query.

(** The Keras that [from tensorflow import keras] brings in.  The two major
    versions treat an assignment to the attribute [trainable] of a layer,
    and an unknown keyword of [keras.Model], differently. *)
Inductive keras_version : Type := Keras2 | Keras3.

(** The truth value of a Python object ([bool(v)]). *)
Definition truth (v : value) : bool :=
  match v with
  | VInt z => negb (z =? 0)
  | VFloat r => if Req_dec_T r 0 then false else true
  | VBool b => b
  | _ => true
  end.

(** Modelled from the spec: [trainable] is not a free attribute name: every
    Keras layer has it as a property over the slot [_trainable], its
    trainability flag, which is not under src/.  Reading it returns the
    slot.  Assigning to it stores the assigned object in the slot (Keras 2)
    or the truth value of the assigned object (Keras 3). *)
Definition Layer_get_trainable (self : object) : result value :=
  getattr self "_trainable".

Definition Layer_set_trainable (version : keras_version) (self : object) (v : value)
    : object :=
  match version with
  | Keras2 => setattr self "_trainable" v
  | Keras3 => setattr self "_trainable" (VBool (truth v))
  end.

(** Modelled from the spec: the constructor of the base attention layer,
    which is not under src/; it stores its keyword arguments, and as every
    layer it starts trainable. *)
Definition MultiHeadAttention_init (num_heads key_dim : Z) (dropout : R) : result object :=
  let self : object := ∅ in
  let self := setattr self "_trainable" (VBool true) in
  let self := setattr self "_num_heads" (VInt num_heads) in
  let self := setattr self "_key_dim" (VInt key_dim) in
  let self := setattr self "_dropout" (VFloat dropout) in
  Ok self.

(** [multiheadattention.__init__]: after the base constructor, the
    temperature variable is created from [_key_dim] ([math.sqrt] refuses a
    negative argument) and assigned to [self.trainable]. *)
Definition multiheadattention_init (version : keras_version) (num_heads key_dim : Z)
    (dropout : R) : result object :=
  self ← MultiHeadAttention_init num_heads key_dim dropout;
  _key_dim ← getattr_int self "_key_dim";
  if _key_dim <? 0 then Raise (ValueError "math domain error")
  else Ok (Layer_set_trainable version self (VFloat (sqrt (IZR _key_dim)))).

(** [a / b] for a Python float [a]: a Python number as divisor raises on
    zero, a variable as divisor makes the quotient a tensor and does not
    raise.  At a zero variable the runtime's quotient is infinite, which the
    reals cannot express; statements about returned values leave a zero
    temperature out. *)
Definition truediv (a : R) (b : value) : result R :=
  match b with
  | VFloat r => Ok (a / r)%R
  | VInt z => if z =? 0 then Raise (ZeroDivisionError "float division by zero")
              else Ok (a / IZR z)%R
  | VBool b => if b then Ok (a / 1)%R
               else Raise (ZeroDivisionError "float division by zero")
  | _ => Raise (TypeError "unsupported operand type(s) for /")
  end.

Section Attention.
(** The dropout layer of the attention block: the identity at inference,
    a random thinning during training. *)
Variable dropout_layer : list matrix -> list matrix.

(** [multiheadattention._compute_attention]. *)
Definition compute_attention (self : object) (query key value : list matrix)
    (attention_mask : option (list (list (list Z)))) : result (list matrix * list matrix) :=
  trainable ← Layer_get_trainable self;
  scale ← truediv 1.0 trainable;
  let query := scale_queries scale query in
  let attention_scores := dot_product_equation key query in
  let attention_scores := masked_softmax attention_scores attention_mask in
  let attention_scores_drop := dropout_layer attention_scores in
  let attention_output := combine_equation attention_scores_drop value in
  Ok (attention_output, attention_scores).

(** Modelled from the spec: the standard scaled dot-product attention of
    the base class, which is not under src/.  The raw key-query scores are
    divided by the fixed sqrt(key_dim); masking, normalisation, dropout and
    the combination with the values are as above. *)
Definition standard_compute_attention (self : object) (query key value : list matrix)
    (attention_mask : option (list (list (list Z)))) : result (list matrix * list matrix) :=
  _key_dim ← getattr_int self "_key_dim";
  let attention_scores := dot_product_equation key query in
  let attention_scores :=
    map (map (map (fun s => s / sqrt (IZR _key_dim))%R)) attention_scores in
  let attention_scores := masked_softmax attention_scores attention_mask in
  let attention_scores_drop := dropout_layer attention_scores in
  let attention_output := combine_equation attention_scores_drop value in
  Ok (attention_output, attention_scores).

(** Learned projections of an attention layer: tokens to per-head queries,
    keys and values, and heads back to tokens. *)
Record attention_weights : Type :=
  { project_query : matrix -> list matrix;
    project_key : matrix -> list matrix;
    project_value : matrix -> list matrix;
    project_output : list matrix -> matrix }.

(** Calling an attention layer as [layer(query, value, attention_mask)]:
    the key defaults to the value. *)
Definition attention_call
    (compute : object -> list matrix -> list matrix -> list matrix ->
               option (list (list (list Z))) -> result (list matrix * list matrix))
    (w : attention_weights) (self : object) (query value : matrix)
    (attention_mask : option (list (list (list Z)))) : result matrix :=
  let key := value in
  '(attention_output, _) ←
    compute self (project_query w query) (project_key w key) (project_value w value)
            attention_mask;
  Ok (project_output w attention_output).
End Attention.

(** ** Feed-forward block and encoder block ([mlp], [vit_classifier]) *)

Section Encoder.
(** Activation and dropout of the runtime. *)
Variable gelu : R -> R.
Variable dropout : R -> matrix -> matrix.
Variable dropout_layer : list matrix -> list matrix.

(** [mlp]: each entry of [hidden_units] creates a fresh dense layer, whose
    learned weights are [weights 0], [weights 1], ... in order, followed
    by dropout. *)
Fixpoint mlp (weights : nat -> dense_weights) (x : matrix) (hidden_units : list Z)
    (dropout_rate : R) : result matrix :=
  match hidden_units with
  | [] => Ok x
  | units :: rest =>
      if units <? 0 then Raise (ValueError "Received an invalid value for `units`")
      else
        let x := map (map gelu) (map (dense_vector (weights O) (Z.to_nat units)) x) in
        let x := dropout dropout_rate x in
        mlp (fun i => weights (S i)) x rest dropout_rate
  end.

(** [layers.Add()([a, b])]: both inputs must have one shape. *)
Definition add_call (a b : matrix) : result matrix :=
  if bool_decide (map length a = map length b)
  then Ok (zip_with (zip_with Rplus) a b)
  else Raise (ValueError "Inputs have incompatible shapes").

(** Tensor subtraction [a - b] with broadcasting of axes of size one. *)
Definition broadcast2 {A} (f : A -> A -> result A) (a b : list A) : result (list A) :=
  if bool_decide (length a = length b) then mapM (fun ab => f ab.1 ab.2) (zip a b)
  else match a, b with
       | [a0], _ => mapM (f a0) b
       | _, [b0] => mapM (fun ai => f ai b0) a
       | _, _ => Raise (InvalidArgumentError "Incompatible shapes")
       end.

Definition subtract (a b : matrix) : result matrix :=
  broadcast2 (broadcast2 (fun x y => Ok (x - y)%R)) a b.

(** Learned parameters of one encoder block. *)
Record block_weights : Type :=
  { norm1 : norm_weights;
    attention : attention_weights;
    norm2 : norm_weights;
    feed_forward : nat -> dense_weights }.

(** What the model builder reads from module scope: the hyperparameters
    and the imported Keras. *)
Record hyperparameters : Type :=
  { keras : keras_version;
    num_patches : Z;
    projection_dim : Z;
    num_heads : Z;
    transformer_units : list Z }.

(** One pass of the loop body of [vit_classifier]. *)
Definition encoder_block (hp : hyperparameters) (vanilla : bool) (w : block_weights)
    (encoded_patches : matrix) : result matrix :=
  x1 ← layer_norm_call (VLayerNorm 1e-6) (norm1 w) encoded_patches;
  attention_output ←
    (if negb vanilla then
       layer ← multiheadattention_init (keras hp) (num_heads hp) (projection_dim hp) 0.1;
       attention_call (compute_attention dropout_layer) (attention w) layer x1 x1
         (Some (diag_attn_mask (num_patches hp)))
     else
       layer ← MultiHeadAttention_init (num_heads hp) (projection_dim hp) 0.1;
       attention_call (standard_compute_attention dropout_layer) (attention w) layer x1 x1
         None);
  x2 ← add_call attention_output encoded_patches;
  x3 ← layer_norm_call (VLayerNorm 1e-6) (norm2 w) x2;
  ff ← mlp (feed_forward w) x3 (transformer_units hp) 0.1;
  _ ← subtract x3 ff;
  add_call x3 x2.

(** The loop [for _ in range(transformer_layers)]: one set of weights per
    iteration. *)
Fixpoint encoder_stack (hp : hyperparameters) (vanilla : bool)
    (layers : list block_weights) (encoded_patches : matrix) : result matrix :=
  match layers with
  | [] => Ok encoded_patches
  | w :: rest =>
      encoded_patches ← encoder_block hp vanilla w encoded_patches;
      encoder_stack hp vanilla rest encoded_patches
  end.
End Encoder.

(** ** Sample encoder block *)

(** A block over one token of width 2 whose attention branch is forced to
    zero by its output projection and whose feed-forward weights are zero. *)
Definition silent_attention : attention_weights :=
  {| project_query := fun x => [x];
     project_key := fun x => [x];
     project_value := fun x => [x];
     project_output := fun _ => [[0%R; 0%R]] |}.

Definition silent_block : block_weights :=
  {| norm1 := fresh_norm;
     attention := silent_attention;
     norm2 := fresh_norm;
     feed_forward := fun _ => zero_dense |}.

Definition small_hyperparameters : hyperparameters :=
  {| keras := Keras2;
     num_patches := 1; projection_dim := 2; num_heads := 1; transformer_units := [4; 2] |}.

(** ** Objects completed by hand *)

(** A schedule on which the attribute read by the last line of [__call__]
    has been set as well, to the value of [total_steps]. *)
Definition with_total_Steps (self : object) : object :=
  match self !! "total_steps" with
  | Some total => setattr self "total_Steps" total
  | None => self
  end.

(** Build a schedule, complete it, query it. *)
Definition completed_rate (learning_rate_base : R) (total_steps : Z)
    (warmup_learning_rate : R) (warmup_steps : Z) (step : Z) : result R :=
  self ← warmupcosine_init learning_rate_base total_steps
           warmup_learning_rate warmup_steps;
  warmupcosine_call (with_total_Steps self) step.

(** ** Positional encoder (class [patch_encoder]) *)

(** The attributes of a positional encoder: the patch count, the embedding
    layer [layers.Embedding(input_dim, output_dim)] and the position
    indices. *)
Record patch_encoder : Type :=
  { encoder_num_patches : Z;
    position_embedding : Z * Z;
    positions : list Z }.

(** [tf.range(start = 0, limit = n, delta = 1)]. *)
Definition tf_range (n : Z) : list Z := map Z.of_nat (seq 0 (Z.to_nat n)).

(** [patch_encoder.__init__].  The embedding layer refuses a table without
    rows or without columns. *)
Definition patch_encoder_init (num_patches projection_dim : Z) : result patch_encoder :=
  position_embedding ←
    (if (num_patches <=? 0) || (projection_dim <=? 0)
     then Raise (ValueError "Both `input_dim` and `output_dim` should be positive")
     else Ok (num_patches, projection_dim));
  Ok {| encoder_num_patches := num_patches;
        position_embedding := position_embedding;
        positions := tf_range num_patches |}.

(** Calling the embedding layer on indices: one table row per index; an
    index outside the table is an error.  The table is learned. *)
Definition embedding_call (layer : Z * Z) (table : nat -> nat -> R) (indices : list Z)
    : result matrix :=
  let '(input_dim, output_dim) := layer in
  mapM (fun i =>
          if (i <? 0) || (input_dim <=? i)
          then Raise (InvalidArgumentError "indices out of range")
          else Ok (map (table (Z.to_nat i)) (seq 0 (Z.to_nat output_dim))))
       indices.

(** Tensor addition [a + b] with broadcasting of axes of size one. *)
Definition broadcast_add (a b : matrix) : result matrix :=
  broadcast2 (broadcast2 (fun x y => Ok (x + y)%R)) a b.

(** [patch_encoder.call]. *)
Definition patch_encoder_call (table : nat -> nat -> R) (self : patch_encoder)
    (encoded_patches : matrix) : result matrix :=
  encoded_positions ← embedding_call (position_embedding self) table (positions self);
  broadcast_add encoded_patches encoded_positions.

(** ** Classifier ([vit_classifier]) *)

(** Hyperparameters of module scope that the classifier reads besides those
    of the encoder blocks. *)
Record model_config : Type :=
  { config_image_size : Z;
    config_patch_size : Z;
    config_blocks : hyperparameters;
    config_mlp_head_units : list Z;
    config_num_classes : Z }.

(** The values assigned in module scope.  The source does not fix the Keras
    version; nothing stated about this configuration depends on it. *)
Definition source_config : model_config :=
  {| config_image_size := 72;
     config_patch_size := 6;
     config_blocks :=
       {| keras := Keras2;
          num_patches := (72 / 6) ^ 2;
          projection_dim := 64;
          num_heads := 4;
          transformer_units := [64 * 2; 64] |};
     config_mlp_head_units := [2048; 1024];
     config_num_classes := 10 |}.

(** Learned parameters of the whole classifier; the list of block weights
    has one entry per iteration of the encoder loop. *)
Record model_weights : Type :=
  { tokenizer_params : tokenizer_weights;
    position_table : nat -> nat -> R;
    block_params : list block_weights;
    final_norm : norm_weights;
    head_params : nat -> dense_weights;
    logits_params : dense_weights }.

Section Classifier.
Variable gelu : R -> R.
Variable dropout : R -> matrix -> matrix.
Variable dropout_layer : list matrix -> list matrix.

(** The tail of [vit_classifier]: final normalisation, flattening of the
    sequence into one vector, dropout, the head [mlp] and the dense layer
    producing one score per class.  The result has one row per sample. *)
Definition classifier_head (cfg : model_config) (w : model_weights)
    (encoded_patches : matrix) : result matrix :=
  representation ← layer_norm_call (VLayerNorm 1e-6) (final_norm w) encoded_patches;
  let representation := [concat representation] in
  let representation := dropout 0.5 representation in
  features ← mlp gelu dropout (head_params w) representation
               (config_mlp_head_units cfg) 0.5;
  logits_layer ← (if config_num_classes cfg <? 0
                  then Raise (ValueError "Received an invalid value for `units`")
                  else Ok (VDense (config_num_classes cfg)));
  dense_call logits_layer (logits_params w) features.

(** The computation that [vit_classifier] lays out, from the augmented
    image to the logits: tokenizer, positional encoder, encoder blocks,
    head. *)
Definition vit_classifier_logits (cfg : model_config) (vanilla : bool) (w : model_weights)
    (augumented : image) : result matrix :=
  let hp := config_blocks cfg in
  '(tokens, _) ← tokenize (tokenizer_params w) (config_image_size cfg)
                   (config_patch_size cfg) (num_patches hp) (projection_dim hp)
                   vanilla augumented;
  encoder ← patch_encoder_init (num_patches hp) (projection_dim hp);
  encoded_patches ← patch_encoder_call (position_table w) encoder tokens;
  encoded_patches ← encoder_stack gelu dropout dropout_layer hp vanilla
                      (block_params w) encoded_patches;
  classifier_head cfg w encoded_patches.

(** Modelled from the spec: [keras.Model(...)], which is not under src/,
    builds a model from the keywords [inputs] and [outputs]; a keyword it
    does not know is refused, with a type error in Keras 2 and a value error
    in Keras 3. *)
Definition keras_Model (version : keras_version) (keywords : list string)
    (outputs : matrix) : result matrix :=
  match filter (fun k => negb (bool_decide (k ∈ ["inputs"; "outputs"; "name"]))) keywords with
  | [] => Ok outputs
  | k :: _ =>
      match version with
      | Keras2 => Raise (TypeError ("Keyword argument not understood: " ++ k))
      | Keras3 => Raise (ValueError ("Unrecognized keyword arguments passed to Model: " ++ k))
      end
  end.

(** [vit_classifier]: the layers are laid out up to the logits, then the
    model is requested with [keras.Model(input = inputs, outputs = logits)]. *)
Definition vit_classifier (cfg : model_config) (vanilla : bool) (w : model_weights)
    (augumented : image) : result matrix :=
  logits ← vit_classifier_logits cfg vanilla w augumented;
  keras_Model (keras (config_blocks cfg)) ["input"; "outputs"] logits.
End Classifier.

(** ** A small classifier *)

(** A configuration for 2 x 2 images cut into four one-pixel patches,
    embedded in width 2, with three classes. *)
Definition tiny_config : model_config :=
  {| config_image_size := 2;
     config_patch_size := 1;
     config_blocks :=
       {| keras := Keras2;
          num_patches := (2 / 1) ^ 2;
          projection_dim := 2;
          num_heads := 1;
          transformer_units := [2 * 2; 2] |};
     config_mlp_head_units := [8; 4];
     config_num_classes := 3 |}.

(** Weights for it: two encoder blocks whose attention projects back to
    four tokens of width 2. *)
Definition tiny_block : block_weights :=
  {| norm1 := fresh_norm;
     attention := {| project_query := fun x => [x];
                     project_key := fun x => [x];
                     project_value := fun x => [x];
                     project_output := fun _ => replicate 4 [0%R; 0%R] |};
     norm2 := fresh_norm;
     feed_forward := fun _ => zero_dense |}.

Definition tiny_weights : model_weights :=
  {| tokenizer_params := sample_weights;
     position_table := fun i j => INR (i + j);
     block_params := [tiny_block; tiny_block];
     final_norm := fresh_norm;
     head_params := fun _ => zero_dense;
     logits_params := zero_dense |}.

(** ** Theorems *)

(** *** Warmup-cosine schedule *)

Ltac run := cbn [mbind mret result_bind result_ret negb].

Section ScheduleFacts.
Variables (learning_rate_base : R) (total_steps : Z)
          (warmup_learning_rate : R) (warmup_steps : Z).

Let schedule_self : object :=
  <["pi" := VFloat PI]>
    (<["warmup_steps" := VInt warmup_steps]>
       (<["warmup_learning_rate" := VFloat warmup_learning_rate]>
          (<["total_steps" := VInt total_steps]>
             (<["learning_rate_base" := VFloat learning_rate_base]> ∅)))).

Lemma warmupcosine_init_eq :
  warmupcosine_init learning_rate_base total_steps
    warmup_learning_rate warmup_steps = Ok schedule_self.
Proof. reflexivity. Qed.

Lemma self_total_steps : getattr_int schedule_self "total_steps" = Ok total_steps.
Proof. reflexivity. Qed.
Lemma self_warmup_steps : getattr_int schedule_self "warmup_steps" = Ok warmup_steps.
Proof. reflexivity. Qed.
Lemma self_pi : getattr_float schedule_self "pi" = Ok PI.
Proof. reflexivity. Qed.
Lemma self_base : getattr_float schedule_self "learning_rate_base" = Ok learning_rate_base.
Proof. reflexivity. Qed.
Lemma self_warmup_rate :
  getattr_float schedule_self "warmup_learning_rate" = Ok warmup_learning_rate.
Proof. reflexivity. Qed.
Lemma self_total_Steps :
  getattr_int schedule_self "total_Steps" = Raise (AttributeError "total_Steps").
Proof. reflexivity. Qed.

(** The first check of [__call__]. *)
Lemma call_total_below_warmup (step : Z) :
  total_steps < warmup_steps ->
  warmupcosine_call schedule_self step =
    Raise (ValueError "Total Steps must be larger or equal to warmup steps").
Proof.
  intros Hlt. unfold warmupcosine_call.
  rewrite self_total_steps, self_warmup_steps. run.
  apply Z.ltb_lt in Hlt. now rewrite Hlt.
Qed.

(** The second check of [__call__]. *)
Lemma call_base_below_warmup_rate (step : Z) :
  warmup_steps <= total_steps -> 0 < warmup_steps ->
  (learning_rate_base < warmup_learning_rate)%R ->
  warmupcosine_call schedule_self step =
    Raise (ValueError "Base learning rate must be larger than warmup learning rate").
Proof.
  intros Hle Hpos Hlt. unfold warmupcosine_call.
  rewrite self_total_steps, self_warmup_steps. run.
  apply Z.ltb_ge in Hle. rewrite Hle.
  rewrite self_pi, self_base. run.
  apply Z.ltb_lt in Hpos. rewrite Hpos.
  rewrite self_warmup_rate. run.
  destruct (Rlt_dec learning_rate_base warmup_learning_rate); [reflexivity | contradiction].
Qed.

(** Past both checks, the last line reads an attribute that was never set. *)
Lemma call_reaches_clamp (step : Z) :
  valid_schedule learning_rate_base total_steps warmup_learning_rate warmup_steps ->
  warmupcosine_call schedule_self step = Raise (AttributeError "total_Steps").
Proof.
  intros [Hle Hrate]. unfold warmupcosine_call.
  rewrite self_total_steps, self_warmup_steps. run.
  apply Z.ltb_ge in Hle. rewrite Hle.
  rewrite self_pi, self_base. run.
  destruct (0 <? warmup_steps) eqn:Hpos.
  - rewrite self_warmup_rate. run.
    apply Z.ltb_lt in Hpos. specialize (Hrate Hpos).
    destruct (Rlt_dec learning_rate_base warmup_learning_rate) as [Hlt | _]; [lra |].
    run. now rewrite self_total_Steps.
  - run. now rewrite self_total_Steps.
Qed.

(** Had the last line read [total_steps], the value returned would be the
    piecewise rate: linear warmup, cosine decay, zero past the last step. *)
Lemma call_with_total_Steps (step : Z) :
  valid_schedule learning_rate_base total_steps warmup_learning_rate warmup_steps ->
  warmupcosine_call (setattr schedule_self "total_Steps" (VInt total_steps)) step
  = Ok (if total_steps <? step then 0
        else if (0 <? warmup_steps) && (step <? warmup_steps)
             then (learning_rate_base - warmup_learning_rate) / IZR warmup_steps * IZR step
                  + warmup_learning_rate
             else 0.5 * learning_rate_base
                  * (1 + cos (PI * (IZR step - IZR warmup_steps)
                              / IZR (total_steps - warmup_steps))))%R.
Proof.
  intros [Hle Hrate]. unfold warmupcosine_call.
  change (getattr_int (setattr schedule_self "total_Steps" (VInt total_steps)) "total_steps")
    with (Ok total_steps).
  change (getattr_int (setattr schedule_self "total_Steps" (VInt total_steps)) "warmup_steps")
    with (Ok warmup_steps).
  change (getattr_float (setattr schedule_self "total_Steps" (VInt total_steps)) "pi")
    with (Ok PI).
  change (getattr_float (setattr schedule_self "total_Steps" (VInt total_steps))
            "learning_rate_base") with (Ok learning_rate_base).
  change (getattr_float (setattr schedule_self "total_Steps" (VInt total_steps))
            "warmup_learning_rate") with (Ok warmup_learning_rate).
  change (getattr_int (setattr schedule_self "total_Steps" (VInt total_steps)) "total_Steps")
    with (Ok total_steps).
  run. apply Z.ltb_ge in Hle. rewrite Hle. run.
  destruct (0 <? warmup_steps) eqn:Hpos; run.
  - apply Z.ltb_lt in Hpos. specialize (Hrate Hpos).
    destruct (Rlt_dec learning_rate_base warmup_learning_rate) as [Hlt | _]; [lra |].
    run. cbn [andb]. now destruct (total_steps <? step), (step <? warmup_steps).
  - reflexivity.
Qed.

End ScheduleFacts.

(** C10: with parameters that pass both checks, every evaluation of the
    rate stops at the read of the undefined attribute [total_Steps] with an
    attribute error, for every step. *)
Theorem rate_raises_attribute_error
    (learning_rate_base : R) (total_steps : Z) (warmup_learning_rate : R)
    (warmup_steps step : Z) :
  valid_schedule learning_rate_base total_steps warmup_learning_rate warmup_steps ->
  rate learning_rate_base total_steps warmup_learning_rate warmup_steps step
  = Raise (AttributeError "total_Steps").
Proof.
  intros Hvalid. unfold rate. rewrite warmupcosine_init_eq. run.
  now apply call_reaches_clamp.
Qed.

Lemma rate_raises_attribute_error_witness :
  valid_schedule 0.001 390 0.0 39 /\
  rate 0.001 390 0.0 39 200 = Raise (AttributeError "total_Steps").
Proof.
  assert (Hvalid : valid_schedule 0.001 390 0.0 39).
  { split; [lia | intros _; lra]. }
  split; [exact Hvalid | exact (rate_raises_attribute_error _ _ _ _ 200 Hvalid)].
Defined.

(** C2: at step 0 of a schedule with a warmup phase the rate should be the
    warmup start rate; the code raises an attribute error instead. *)
Theorem rate_step_zero_raises :
  rate 0.001 100 0.0 10 0 = Raise (AttributeError "total_Steps").
Proof.
  unfold rate. rewrite warmupcosine_init_eq. run.
  apply call_reaches_clamp. split; [lia | intros _; lra].
Qed.

(** C3, as stated, fails: construction with total_steps = 5 and
    warmup_steps = 10 returns an object. *)
Lemma construction_accepts_short_total :
  5 < 10 /\ returns (warmupcosine_init 0.001 5 0.0 10).
Proof. split; [lia | eexists; reflexivity]. Qed.

(** C3, amended: construction always succeeds, and the two checks are made
    by each evaluation of the rate, which raises a value error when
    total_steps < warmup_steps, and when base_rate < warmup_start_rate with
    warmup_steps > 0 (and total_steps >= warmup_steps). *)
Theorem schedule_checks_at_call
    (learning_rate_base : R) (total_steps : Z) (warmup_learning_rate : R)
    (warmup_steps : Z) :
  returns (warmupcosine_init learning_rate_base total_steps
             warmup_learning_rate warmup_steps) /\
  (total_steps < warmup_steps ->
   forall step,
     rate learning_rate_base total_steps warmup_learning_rate warmup_steps step
     = Raise (ValueError "Total Steps must be larger or equal to warmup steps")) /\
  (warmup_steps <= total_steps -> 0 < warmup_steps ->
   (learning_rate_base < warmup_learning_rate)%R ->
   forall step,
     rate learning_rate_base total_steps warmup_learning_rate warmup_steps step
     = Raise (ValueError "Base learning rate must be larger than warmup learning rate")).
Proof.
  split; [eexists; apply warmupcosine_init_eq |].
  split.
  - intros Hlt step. unfold rate. rewrite warmupcosine_init_eq. run.
    now apply call_total_below_warmup.
  - intros Hle Hpos Hlt step. unfold rate. rewrite warmupcosine_init_eq. run.
    now apply call_base_below_warmup_rate.
Qed.

Lemma schedule_checks_at_call_witness :
  rate 0.001 5 0.0 10 0
  = Raise (ValueError "Total Steps must be larger or equal to warmup steps") /\
  rate 0.001 100 0.01 10 0
  = Raise (ValueError "Base learning rate must be larger than warmup learning rate").
Proof.
  split.
  - apply (proj1 (proj2 (schedule_checks_at_call 0.001 5 0.0 10))). lia.
  - apply (proj2 (proj2 (schedule_checks_at_call 0.001 100 0.01 10))); [lia | lia | lra].
Defined.

(** *** Shifted-patch tokenizer: attributes *)

Section TokenizerFacts.
Variables (image_size patch_size num_patches projection_dim : Z) (vanilla : bool).

Let tokenizer_self : object :=
  <["layer_norm" := VLayerNorm layer_norm_eps]>
    (<["projection" := VDense projection_dim]>
       (<["flatten_patches" := VReshape num_patches]>
          (<["haff_patch" := VInt (patch_size / 2)]>
             (<["patch_size" := VInt patch_size]>
                (<["image_size" := VInt image_size]>
                   (<["vanilla" := VBool vanilla]> ∅)))))).

Lemma shiftedpatch_init_eq :
  0 <= projection_dim ->
  shiftedpatch_init image_size patch_size num_patches projection_dim vanilla = Ok tokenizer_self.
Proof.
  intros Hdim. unfold shiftedpatch_init.
  apply Z.ltb_ge in Hdim. rewrite Hdim. reflexivity.
Qed.

Lemma shiftedpatch_init_inv (obj : object) :
  shiftedpatch_init image_size patch_size num_patches projection_dim vanilla = Ok obj ->
  0 <= projection_dim /\ obj = tokenizer_self.
Proof.
  unfold shiftedpatch_init. destruct (projection_dim <? 0) eqn:Hdim; run.
  - discriminate.
  - intros [= <-]. apply Z.ltb_ge in Hdim. split; [exact Hdim | reflexivity].
Qed.

Lemma self_half_patch :
  getattr_int tokenizer_self "half_patch" = Raise (AttributeError "half_patch").
Proof. reflexivity. Qed.
Lemma self_vanilla : getattr_bool tokenizer_self "vanilla" = Ok vanilla.
Proof. reflexivity. Qed.
Lemma self_patch_size : getattr_int tokenizer_self "patch_size" = Ok patch_size.
Proof. reflexivity. Qed.
Lemma self_flatten_patches : getattr tokenizer_self "flatten_patches" = Ok (VReshape num_patches).
Proof. reflexivity. Qed.
Lemma self_projection : getattr tokenizer_self "projection" = Ok (VDense projection_dim).
Proof. reflexivity. Qed.

(** Every direction reads [half_patch] before anything else. *)
Lemma crop_shift_pad_self (images : image) (mode : string) :
  crop_shift_pad tokenizer_self images mode = Raise (AttributeError "half_patch").
Proof.
  unfold crop_shift_pad.
  destruct (String.eqb mode "left-up");
    [| destruct (String.eqb mode "left-down");
       [| destruct (String.eqb mode "right-up")]];
    now rewrite self_half_patch.
Qed.

End TokenizerFacts.

(** The locality path stops in the first [crop_shift_pad]. *)
Lemma locality_call_stops (w : tokenizer_weights)
    (image_size patch_size num_patches projection_dim : Z)
    (self : object) (images : image) :
  shiftedpatch_init image_size patch_size num_patches projection_dim false = Ok self ->
  shiftedpatch_call w self images = Raise (AttributeError "half_patch").
Proof.
  intros Hinit. apply shiftedpatch_init_inv in Hinit as [_ ->].
  unfold shiftedpatch_call. rewrite self_vanilla. run.
  now rewrite crop_shift_pad_self.
Qed.

(** C9: a tokenizer built with vanilla = false fails on every image with an
    attribute error: [crop_shift_pad] reads [half_patch], the constructor
    stored [haff_patch]. *)
Theorem locality_call_raises (w : tokenizer_weights)
    (image_size patch_size num_patches projection_dim : Z)
    (self : object) (images : image) :
  shiftedpatch_init image_size patch_size num_patches projection_dim false = Ok self ->
  shiftedpatch_call w self images = Raise (AttributeError "half_patch").
Proof. apply locality_call_stops. Qed.

Lemma locality_call_raises_witness :
  exists self,
    shiftedpatch_init 72 6 144 64 false = Ok self /\
    shiftedpatch_call sample_weights self (blank_image 72 3)
    = Raise (AttributeError "half_patch").
Proof.
  eexists. split; [reflexivity |].
  apply (locality_call_raises sample_weights 72 6 144 64). reflexivity.
Defined.

(** *** Shapes through patch extraction, flattening and projection *)

Lemma concat_uniform_length {A} (k : nat) (l : list (list A)) :
  Forall (fun x => length x = k) l -> length (concat l) = (length l * k)%nat.
Proof.
  induction 1 as [| x l Hx _ IH]; [reflexivity |].
  cbn [concat length]. rewrite length_app, IH, Hx. lia.
Qed.

Lemma chunks_length (k n : nat) (flat : list R) : length (chunks k n flat) = n.
Proof.
  revert flat. induction n as [| n IH]; intros flat; [reflexivity |].
  cbn [chunks length]. now rewrite IH.
Qed.

Lemma dense_vector_length (w : dense_weights) (units : nat) (x : list R) :
  length (dense_vector w units x) = units.
Proof. unfold dense_vector. now rewrite length_map, length_seq. Qed.

Section ImageShapes.
Variables (h w c : nat) (img : image).
Hypothesis Hshape : has_shape h w c img.

Lemma height_shape : height img = Z.of_nat h.
Proof. destruct Hshape as [Hh _]. unfold height. now rewrite Hh. Qed.

Lemma width_shape : (0 < h)%nat -> width img = Z.of_nat w.
Proof.
  destruct Hshape as [Hh Hrows]. intros Hpos. unfold width.
  destruct img as [| row rest]; [cbn in Hh; lia |].
  apply Forall_cons in Hrows as [[Hw _] _]. now rewrite Hw.
Qed.

Lemma channels_shape : (0 < h)%nat -> (0 < w)%nat -> channels img = Z.of_nat c.
Proof.
  destruct Hshape as [Hh Hrows]. intros Hpos Hwpos. unfold channels.
  destruct img as [| row rest]; [cbn in Hh; lia |].
  apply Forall_cons in Hrows as [[Hw Hpx] _].
  destruct row as [| px row]; [cbn in Hw; lia |].
  apply Forall_cons in Hpx as [Hc _]. now rewrite Hc.
Qed.

End ImageShapes.

Section PatchShapes.
Variables (h w c p : nat) (img : image).
Hypothesis Hshape : has_shape h w c img.
Hypothesis Hp : (0 < p)%nat.

Lemma patch_at_length (r col : nat) :
  (r * p + p <= h)%nat -> (col * p + p <= w)%nat ->
  length (patch_at img p r col) = (p * p * c)%nat.
Proof.
  intros Hr Hc. destruct Hshape as [Hh Hrows]. unfold patch_at.
  rewrite (concat_uniform_length (p * c)).
  - rewrite length_map, length_take, length_drop.
    rewrite Nat.min_l; lia.
  - apply Forall_map, Forall_take, Forall_drop.
    eapply Forall_impl; [exact Hrows |].
    intros row [Hw Hpx]. cbn beta.
    rewrite (concat_uniform_length c).
    + rewrite length_take, length_drop. rewrite Nat.min_l; lia.
    + now apply Forall_take, Forall_drop.
Qed.

(** The patch grid: h/p rows of w/p patches of p*p*c values each. *)
Lemma extract_patches_shape :
  exists patches,
    extract_patches img (Z.of_nat p) (Z.of_nat p) = Ok patches /\
    length patches = (h / p)%nat /\
    Forall (fun row => length row = (w / p)%nat /\
                       Forall (fun v : list R => length v = (p * p * c)%nat) row) patches.
Proof.
  unfold extract_patches.
  replace (Z.of_nat p <=? 0) with false by (symmetry; apply Z.leb_gt; lia).
  cbn [orb]. eexists. split; [reflexivity |].
  rewrite (height_shape h w c img Hshape).
  replace (Z.to_nat ((Z.of_nat h - Z.of_nat p + Z.of_nat p) / Z.of_nat p)) with (h / p)%nat
    by (rewrite Z.sub_add, <- Nat2Z.inj_div, Nat2Z.id; reflexivity).
  split; [now rewrite length_map, length_seq |].
  apply Forall_map, Forall_forall. intros r Hr. apply elem_of_seq in Hr. cbn beta.
  assert (Hh : (0 < h)%nat).
  { destruct h as [| h']; [| lia]. rewrite Nat.Div0.div_0_l in Hr. lia. }
  rewrite (width_shape h w c img Hshape Hh).
  replace (Z.to_nat ((Z.of_nat w - Z.of_nat p + Z.of_nat p) / Z.of_nat p)) with (w / p)%nat
    by (rewrite Z.sub_add, <- Nat2Z.inj_div, Nat2Z.id; reflexivity).
  split; [now rewrite length_map, length_seq |].
  apply Forall_map, Forall_forall. intros col Hcol. apply elem_of_seq in Hcol. cbn beta.
  rewrite Nat2Z.id. apply patch_at_length.
  - pose proof (Nat.Div0.mul_div_le h p). nia.
  - pose proof (Nat.Div0.mul_div_le w p). nia.
Qed.

End PatchShapes.

Lemma patch_grid_flat_length (n m k : nat) (patches : list (list (list R))) :
  length patches = n ->
  Forall (fun row => length row = m /\ Forall (fun v : list R => length v = k) row) patches ->
  length (concat (concat patches)) = (n * m * k)%nat.
Proof.
  intros Hn Hrows.
  rewrite (concat_uniform_length k).
  - rewrite (concat_uniform_length m), Hn; [reflexivity |].
    eapply Forall_impl; [exact Hrows |]. now intros row [Hm _].
  - apply Forall_concat. eapply Forall_impl; [exact Hrows |]. now intros row [_ Hk].
Qed.

(** The vanilla path on a square image whose side is a multiple of the patch
    side, with [num_patches] left as a free parameter: the reshape decides
    the number of tokens. *)
Lemma vanilla_call_shape (w : tokenizer_weights)
    (image_size patch_size num_patches projection_dim : Z) (c : nat) (img : image) :
  0 < patch_size -> 0 < image_size -> image_size mod patch_size = 0 ->
  0 <= projection_dim ->
  has_shape (Z.to_nat image_size) (Z.to_nat image_size) c img ->
  num_patches = (image_size / patch_size) ^ 2 ->
  exists tokens patches,
    tokenize w image_size patch_size num_patches projection_dim true img
    = Ok (tokens, patches) /\
    Z.of_nat (length tokens) = num_patches /\
    Forall (fun t => Z.of_nat (length t) = projection_dim) tokens /\
    Forall (Forall (fun v : list R =>
                      Z.of_nat (length v) = patch_size * patch_size * Z.of_nat c)) patches.
Proof.
  intros Hp Hs Hdiv Hdim Hshape ->.
  set (p := Z.to_nat patch_size). set (s := Z.to_nat image_size).
  assert (Hp' : (0 < p)%nat) by (subst p; lia).
  destruct (extract_patches_shape s s c p img Hshape Hp')
    as (patches & Hext & Hlen & Hrows).
  assert (Hpz : Z.of_nat p = patch_size) by (subst p; lia).
  rewrite Hpz in Hext.
  assert (Hq : image_size / patch_size = Z.of_nat (s / p)).
  { subst s p. rewrite Nat2Z.inj_div, !Z2Nat.id by lia. reflexivity. }
  assert (Hqpos : (0 < s / p)%nat).
  { apply Nat2Z.inj_lt. rewrite <- Hq. cbn [Z.of_nat].
    apply Z.div_str_pos. split; [lia |].
    apply Z.mod_divide in Hdiv; [| lia]. apply Z.divide_pos_le in Hdiv; lia. }
  pose proof (patch_grid_flat_length _ _ _ patches Hlen Hrows) as Hflat.
  set (n := (s / p)%nat) in *. set (k := (p * p * c)%nat) in *.
  assert (Hrows_eq : (image_size / patch_size) ^ 2 = Z.of_nat (n * n)).
  { rewrite Hq. lia. }
  exists (map (dense_vector (projection_weights w) (Z.to_nat projection_dim))
            (chunks k (n * n) (concat (concat patches)))), patches.
  split; [| split; [| split]].
  - unfold tokenize. rewrite shiftedpatch_init_eq by exact Hdim. run.
    unfold shiftedpatch_call.
    rewrite self_vanilla, self_patch_size. run.
    rewrite Hext. run. rewrite self_flatten_patches. run.
    unfold reshape_call. rewrite Hflat, Hrows_eq.
    replace (Z.of_nat (n * n) <=? 0) with false by (symmetry; apply Z.leb_gt; lia).
    replace (Z.of_nat (n * n * k)) with (Z.of_nat k * Z.of_nat (n * n)) by lia.
    rewrite Z.mod_mul by lia. rewrite Z.div_mul by lia.
    cbn [orb negb Z.eqb]. run.
    rewrite self_projection. run. unfold dense_call.
    now rewrite !Nat2Z.id.
  - rewrite length_map, chunks_length. lia.
  - apply Forall_map, Forall_forall. intros t _. cbn beta.
    rewrite dense_vector_length. lia.
  - eapply Forall_impl; [exact Hrows |]. intros row [_ Hk].
    eapply Forall_impl; [exact Hk |]. intros v Hv. cbn beta in *. rewrite Hv. subst k. lia.
Qed.

Lemma blank_image_shape (s c : nat) : has_shape s s c (blank_image s c).
Proof.
  split; [apply length_replicate |].
  apply Forall_replicate. split; [apply length_replicate |].
  apply Forall_replicate, length_replicate.
Qed.

Lemma sample_image_shape : has_shape 2 2 1 sample_image.
Proof. split; [reflexivity |]. repeat constructor. Qed.

(** C8, as stated, fails: in vanilla mode the number of tokens is the
    constructor argument [num_patches], here 1 on a 2 x 2 grid of patches,
    and in locality mode no token sequence is returned at all. *)
Lemma token_count_follows_num_patches :
  2 mod 1 = 0 /\ has_shape 2 2 1 sample_image /\
  (exists tokens patches,
     tokenize sample_weights 2 1 1 3 true sample_image = Ok (tokens, patches) /\
     Z.of_nat (length tokens) <> (2 / 1) ^ 2) /\
  tokenize sample_weights 2 1 ((2 / 1) ^ 2) 3 false sample_image
  = Raise (AttributeError "half_patch").
Proof.
  split; [reflexivity |]. split; [apply sample_image_shape |]. split.
  - eexists _, _. split; [reflexivity |].
    rewrite length_map, chunks_length. vm_compute. intros [=].
  - reflexivity.
Qed.

(** C8, amended: in vanilla mode, with [num_patches] set to
    (image_size / patch_size) squared, every image of side [image_size]
    (a multiple of [patch_size]) yields exactly that many tokens. *)
Theorem vanilla_token_count (w : tokenizer_weights)
    (image_size patch_size projection_dim : Z) (c : nat) (img : image) :
  0 < patch_size -> 0 < image_size -> image_size mod patch_size = 0 ->
  0 <= projection_dim -> (0 < c)%nat ->
  has_shape (Z.to_nat image_size) (Z.to_nat image_size) c img ->
  exists tokens patches,
    tokenize w image_size patch_size ((image_size / patch_size) ^ 2) projection_dim true img
    = Ok (tokens, patches) /\
    Z.of_nat (length tokens) = (image_size / patch_size) ^ 2.
Proof.
  intros Hp Hs Hdiv Hdim _ Hshape.
  destruct (vanilla_call_shape w image_size patch_size _ projection_dim c img
              Hp Hs Hdiv Hdim Hshape eq_refl) as (tokens & patches & Hcall & Hlen & _).
  now exists tokens, patches.
Qed.

Lemma vanilla_token_count_witness :
  exists tokens patches,
    tokenize sample_weights 2 1 ((2 / 1) ^ 2) 3 true sample_image = Ok (tokens, patches) /\
    Z.of_nat (length tokens) = (2 / 1) ^ 2.
Proof.
  apply (vanilla_token_count sample_weights 2 1 3 1 sample_image);
    [lia | lia | reflexivity | lia | lia | apply sample_image_shape].
Defined.

(** C7: on a 72 x 72 x 3 image with patches of side 6 the vanilla path hands
    108-value patch vectors to the projection; the locality path, which
    should hand over 540-value vectors, raises before any patch exists. *)
Theorem locality_patch_vectors_missing (w : tokenizer_weights) :
  (exists tokens patches,
     tokenize w 72 6 144 64 true (blank_image 72 3) = Ok (tokens, patches) /\
     Forall (Forall (fun v : list R => Z.of_nat (length v) = 108)) patches) /\
  tokenize w 72 6 144 64 false (blank_image 72 3) = Raise (AttributeError "half_patch").
Proof.
  split.
  - destruct (vanilla_call_shape w 72 6 144 64 3 (blank_image 72 3))
      as (tokens & patches & Hcall & _ & _ & Hpatches);
      [lia | lia | reflexivity | lia | apply (blank_image_shape 72 3) | reflexivity |].
    exists tokens, patches. split; [exact Hcall | exact Hpatches].
  - unfold tokenize. rewrite shiftedpatch_init_eq by lia. run.
    apply (locality_call_stops w 72 6 144 64). reflexivity.
Qed.

(** C4: on the tokenizer that the constructor builds, the shift operation
    never crops or pads: in each of the four directions it raises at its
    first read of [half_patch]. *)
Theorem crop_shift_pad_raises (images : image) (mode : string) :
  (self ← shiftedpatch_init 72 6 144 64 false; crop_shift_pad self images mode)
  = Raise (AttributeError "half_patch").
Proof.
  rewrite shiftedpatch_init_eq by lia. run. apply crop_shift_pad_self.
Qed.

(** *** Diagonal mask and masked normalisation *)




Lemma sum_R_map_div (S : R) (l : list R) :
  sum_R (map (fun x => x / S)%R l) = (sum_R l / S)%R.
Proof.
  induction l as [| x l IH]; cbn [map sum_R foldr].
  - unfold Rdiv. now rewrite Rmult_0_l.
  - fold (sum_R l). fold (sum_R (map (fun x => x / S)%R l)). rewrite IH. lra.
Qed.

Lemma sum_R_nonneg (l : list R) : Forall (fun x => 0 <= x)%R l -> (0 <= sum_R l)%R.
Proof.
  induction 1 as [| x l Hx _ IH]; cbn [sum_R foldr]; [lra |]. fold (sum_R l). lra.
Qed.

Lemma sum_R_member (l : list R) (x : R) :
  Forall (fun y => 0 <= y)%R l -> In x l -> (x <= sum_R l)%R.
Proof.
  induction 1 as [| y l Hy Hl IH]; intros Hin; [destruct Hin |].
  cbn [sum_R foldr]. fold (sum_R l). pose proof (sum_R_nonneg l Hl).
  destruct Hin as [-> | Hin]; [lra | specialize (IH Hin); lra].
Qed.


Lemma foldr_Rmax_in (d : R) (l : list R) :
  foldr Rmax d l = d \/ In (foldr Rmax d l) l.
Proof.
  induction l as [| y l IH]; [now left |]. cbn [foldr].
  set (m := foldr Rmax d l) in *.
  assert (Hmax : Rmax y m = y \/ Rmax y m = m).
  { unfold Rmax. destruct (Rle_dec y m); [right | left]; reflexivity. }
  destruct Hmax as [-> | ->].
  - right. now left.
  - destruct IH as [Hd | Hin]; [now left | right; now right].
Qed.


Lemma max_R_in (l : list R) : l <> [] -> In (max_R l) l.
Proof.
  destruct l as [| a l]; [congruence |]. intros _. unfold max_R. cbn [hd].
  destruct (foldr_Rmax_in a (a :: l)) as [-> | Hin]; [now left | exact Hin].
Qed.


Lemma exp_float32_nonneg (x : R) : (0 <= exp_float32 x)%R.
Proof.
  unfold exp_float32. destruct (Rlt_dec _ _); [lra |]. pose proof (exp_pos x). lra.
Qed.

Lemma exp_float32_0 : exp_float32 0 = 1%R.
Proof.
  unfold exp_float32. rewrite exp_0.
  destruct (Rlt_dec 1 (/ 2 ^ 150)) as [Hlt | _]; [exfalso | reflexivity].
  assert (Hpow : (1 <= 2 ^ 150)%R) by (apply pow_R1_Rle; lra).
  assert (Hinv : (/ 2 ^ 150 <= / 1)%R) by (apply Rinv_le_contravar; lra).
  rewrite Rinv_1 in Hinv. lra.
Qed.


Lemma shifted_nonneg (m : R) (l : list R) :
  Forall (fun y => 0 <= y)%R (map (fun xi => exp_float32 (xi - m)) l).
Proof. induction l as [| x l IH]; cbn [map]; constructor; [apply exp_float32_nonneg | exact IH]. Qed.

Lemma sum_shifted_pos (l : list R) :
  l <> [] -> (0 < sum_R (map (fun xi => exp_float32 (xi - max_R l)) l))%R.
Proof.
  intros Hne. apply Rlt_le_trans with 1%R; [lra |].
  apply sum_R_member; [apply shifted_nonneg |].
  apply in_map_iff. exists (max_R l). split; [| now apply max_R_in].
  rewrite Rminus_diag. apply exp_float32_0.
Qed.

Lemma nth_map_in {A B} (f : A -> B) (l : list A) (i : nat) (d : A) (e : B) :
  (i < length l)%nat -> nth i (map f l) e = f (nth i l d).
Proof.
  revert i. induction l as [| x l IH]; intros i Hi; cbn in Hi; [lia |].
  destruct i as [| i]; [reflexivity |]. cbn [map nth]. apply IH. lia.
Qed.

(** A softmax row is a probability distribution. *)
Lemma softmax_sum (l : list R) : l <> [] -> sum_R (softmax l) = 1%R.
Proof.
  intros Hne. unfold softmax. cbv zeta.
  rewrite sum_R_map_div. pose proof (sum_shifted_pos l Hne). now apply Rdiv_diag, Rgt_not_eq.
Qed.

Lemma softmax_length (l : list R) : length (softmax l) = length l.
Proof. unfold softmax. cbv zeta. now rewrite !length_map. Qed.

Lemma softmax_nth (l : list R) (i : nat) :
  (i < length l)%nat ->
  nth i (softmax l) 0%R
  = (exp_float32 (nth i l 0 - max_R l)
     / sum_R (map (fun xi => exp_float32 (xi - max_R l)) l))%R.
Proof.
  intros Hi. unfold softmax. cbv zeta.
  rewrite (nth_map_in _ _ i 0%R) by now rewrite length_map.
  now rewrite (nth_map_in _ l i 0%R).
Qed.



Lemma nth_zip_with_in {A B C} (f : A -> B -> C) (a : list A) (b : list B)
    (i : nat) (da : A) (db : B) (d : C) :
  (i < length a)%nat -> (i < length b)%nat ->
  nth i (zip_with f a b) d = f (nth i a da) (nth i b db).
Proof.
  revert b i. induction a as [| x a IH]; intros b i Ha Hb; cbn in Ha; [lia |].
  destruct b as [| y b]; cbn in Hb; [lia |].
  destruct i as [| i]; [reflexivity |]. cbn [zip_with nth]. apply IH; lia.
Qed.

Lemma length_zip_with_same {A B C} (f : A -> B -> C) (a : list A) (b : list B) :
  length a = length b -> length (zip_with f a b) = length a.
Proof.
  revert b. induction a as [| x a IH]; intros [| y b] Hlen; cbn in *; try lia.
  now rewrite IH by lia.
Qed.


Section MaskedRows.
Variables (n : nat) (heads : list matrix) (h i : nat).
Hypothesis Hh : (h < length heads)%nat.
Hypothesis Hrows : length (nth h heads []) = n.
Hypothesis Hcols : Forall (fun row : list R => length row = n) (nth h heads []).
Hypothesis Hi : (i < n)%nat.

Let scores : list R := nth i (nth h heads []) [].
Let probs : list R :=
  nth i (nth h (masked_softmax heads (Some (diag_attn_mask (Z.of_nat n)))) []) [].










End MaskedRows.




(** *** Attention temperature *)

Lemma dot_scale_query (c : R) (k q : list R) :
  dot k (map (fun x => x * c)%R q) = (dot k q * c)%R.
Proof.
  unfold dot. revert q. induction k as [| a k IH]; intros [| b q]; cbn; try lra.
  fold (sum_R (zip_with Rmult k (map (fun x => x * c)%R q))).
  fold (sum_R (zip_with Rmult k q)). rewrite IH. lra.
Qed.

(** Scaling the queries scales every raw score, in every head alike. *)
Lemma dot_product_scaled (c : R) (key query : list matrix) :
  dot_product_equation key (scale_queries c query)
  = map (map (map (fun s => s * c)%R)) (dot_product_equation key query).
Proof.
  unfold dot_product_equation, scale_queries.
  revert query. induction key as [| key_n key IH]; intros [| query_n query];
    cbn [map zip_with]; [reflexivity .. |].
  rewrite IH. f_equal.
  rewrite !map_map. apply map_ext. intros query_t.
  rewrite map_map. apply map_ext. intros key_s. apply dot_scale_query.
Qed.

(** Multiplying the queries by one leaves them as they are. *)
Lemma scale_queries_one (query : list matrix) : scale_queries (1.0 / 1) query = query.
Proof.
  unfold scale_queries.
  rewrite <- (map_id query) at 2. apply map_ext. intros m.
  rewrite <- (map_id m) at 2. apply map_ext. intros v.
  rewrite <- (map_id v) at 2. apply map_ext. intros q. lra.
Qed.

Lemma truth_nonzero (r : R) : r <> 0%R -> truth (VFloat r) = true.
Proof. intros Hr. unfold truth. now destruct (Req_dec_T r 0). Qed.

Section AttentionFacts.
Variables (num_heads key_dim : Z) (dropout : R).

Let base : object :=
  <["_dropout" := VFloat dropout]>
    (<["_key_dim" := VInt key_dim]>
       (<["_num_heads" := VInt num_heads]> (<["_trainable" := VBool true]> ∅))).

Lemma MultiHeadAttention_init_eq :
  MultiHeadAttention_init num_heads key_dim dropout = Ok base.
Proof. reflexivity. Qed.

Lemma multiheadattention_init_eq (version : keras_version) :
  0 <= key_dim ->
  multiheadattention_init version num_heads key_dim dropout
  = Ok (Layer_set_trainable version base (VFloat (sqrt (IZR key_dim)))).
Proof.
  intros Hdim. unfold multiheadattention_init.
  rewrite MultiHeadAttention_init_eq. run.
  change (getattr_int base "_key_dim") with (Ok key_dim). run.
  apply Z.ltb_ge in Hdim. now rewrite Hdim.
Qed.

(** The base layer is trainable, and assigning a true object to
    [trainable] under Keras 3 changes nothing. *)
Lemma base_trainable : Layer_get_trainable base = Ok (VBool true).
Proof. reflexivity. Qed.

Lemma keras3_assignment_lost (v : value) :
  truth v = true -> Layer_set_trainable Keras3 base v = base.
Proof.
  intros Htruth. unfold Layer_set_trainable, setattr. rewrite Htruth.
  now apply insert_id.
Qed.

Lemma trained_temperature (v : value) :
  Layer_get_trainable (setattr base "_trainable" v) = Ok v.
Proof. unfold Layer_get_trainable, getattr, setattr. now rewrite lookup_insert_eq. Qed.

Lemma trained_key_dim (v : value) :
  getattr_int (setattr base "_trainable" v) "_key_dim" = Ok key_dim.
Proof. reflexivity. Qed.

End AttentionFacts.

(** C6 fails on the code: the temperature is assigned to [self.trainable],
    the trainability flag that every layer already has, and no attribute is
    added.  With a positive [key_dim]: under Keras 3 the assignment keeps
    the truth value only, the constructed layer is the object the base
    constructor made, and the attention computation multiplies the queries
    by 1 / True, so that the scores are those of the plain dot products,
    divided by nothing; under Keras 2 the flag slot holds the temperature,
    the scores are the dot products divided by it, and at construction the
    computation agrees with the standard one. *)
Theorem locality_attention_temperature
    (dropout_layer : list matrix -> list matrix) (num_heads key_dim : Z) (dropout : R) :
  0 < key_dim ->
  exists base,
    MultiHeadAttention_init num_heads key_dim dropout = Ok base /\
    Layer_get_trainable base = Ok (VBool true) /\
    multiheadattention_init Keras3 num_heads key_dim dropout = Ok base /\
    (forall query key value mask,
       compute_attention dropout_layer base query key value mask
       = (let probs := masked_softmax (dot_product_equation key query) mask in
          Ok (combine_equation (dropout_layer probs) value, probs))) /\
    multiheadattention_init Keras2 num_heads key_dim dropout
    = Ok (setattr base "_trainable" (VFloat (sqrt (IZR key_dim)))) /\
    (forall temperature query key value mask,
       temperature <> 0%R ->
       let trained := setattr base "_trainable" (VFloat temperature) in
       compute_attention dropout_layer trained query key value mask
       = (let probs :=
            masked_softmax
              (map (map (map (fun s => s / temperature)%R)) (dot_product_equation key query))
              mask in
          Ok (combine_equation (dropout_layer probs) value, probs)) /\
       compute_attention dropout_layer trained query key value mask
       = standard_compute_attention dropout_layer trained
           (scale_queries (sqrt (IZR key_dim) / temperature) query) key value mask).
Proof.
  intros Hdim.
  assert (Hsqrt : (0 < sqrt (IZR key_dim))%R) by (apply sqrt_lt_R0, IZR_lt; lia).
  assert (Hscores : forall temperature query key,
            dot_product_equation key (scale_queries (1.0 / temperature) query)
            = map (map (map (fun s => s / temperature)%R)) (dot_product_equation key query)).
  { intros temperature query key. rewrite dot_product_scaled.
    apply map_ext; intros m; apply map_ext; intros v; apply map_ext; intros s; lra. }
  eexists. split; [apply MultiHeadAttention_init_eq |].
  split; [apply base_trainable |]. split; [| split; [| split]].
  - rewrite multiheadattention_init_eq by lia. f_equal.
    apply keras3_assignment_lost, truth_nonzero. lra.
  - intros query key value mask.
    unfold compute_attention. rewrite base_trainable. run.
    cbn [truediv]. run. now rewrite scale_queries_one.
  - now rewrite multiheadattention_init_eq by lia.
  - intros temperature query key value mask Htemperature trained. subst trained. split.
    + unfold compute_attention. rewrite trained_temperature. run.
      cbn [truediv]. run. now rewrite Hscores.
    + unfold compute_attention, standard_compute_attention.
      rewrite trained_temperature, trained_key_dim. run. cbn [truediv]. run.
      assert (Hstd : forall X : list (list (list R)),
                map (map (map (fun s => s / sqrt (IZR key_dim))%R))
                  (map (map (map (fun s => s * (sqrt (IZR key_dim) / temperature))%R)) X)
                = map (map (map (fun s => s / temperature)%R)) X).
      { intros X. rewrite map_map. apply map_ext; intros m.
        rewrite map_map. apply map_ext; intros v.
        rewrite map_map. apply map_ext; intros s.
        unfold Rdiv.
        replace (s * (sqrt (IZR key_dim) * / temperature) * / sqrt (IZR key_dim))%R
          with (s * (sqrt (IZR key_dim) * / sqrt (IZR key_dim)) * / temperature)%R by ring.
        rewrite Rinv_r by lra. ring. }
      now rewrite Hscores, dot_product_scaled, Hstd.
Qed.

(** No underflow at arguments from -1 upwards. *)
Lemma exp_float32_exact (x : R) : (-1 <= x)%R -> exp_float32 x = exp x.
Proof.
  intros Hx. unfold exp_float32.
  destruct (Rlt_dec (exp x) (/ 2 ^ 150)) as [Hlt | _]; [exfalso | reflexivity].
  assert (Hlow : (exp (-1) <= exp x)%R).
  { destruct (Req_dec_T x (-1)) as [-> | Hne]; [lra |].
    apply Rlt_le, exp_increasing. lra. }
  replace (-1)%R with (Ropp 1%R) in Hlow by lra. rewrite exp_Ropp in Hlow.
  pose proof exp_le_3 as Hthree. pose proof (exp_pos 1) as Hpos.
  assert (Hpow : (4 <= 2 ^ 150)%R).
  { pose proof (Rle_pow 2 2 150 ltac:(lra) ltac:(lia)) as Hle.
    assert (H4 : (2 ^ 2 = 4)%R) by (cbn; lra).
    rewrite H4 in Hle. exact Hle. }
  assert (Hinv : (/ 2 ^ 150 <= / 4)%R) by (apply Rinv_le_contravar; lra).
  assert (Hinv' : (/ 3 <= / exp 1)%R) by (apply Rinv_le_contravar; lra).
  lra.
Qed.

(** The first weight of a row of two scores [a] and 0. *)
Lemma softmax_pair (a : R) :
  (0 <= a <= 1)%R -> nth 0 (softmax [a; 0%R]) 0%R = (/ (1 + exp (- a)))%R.
Proof.
  intros Ha. rewrite softmax_nth by (cbn; lia).
  assert (Hmax : max_R [a; 0%R] = a).
  { unfold max_R. cbn [foldr hd]. rewrite (Rmax_right 0 a) by lra.
    apply Rmax_left. lra. }
  rewrite Hmax. cbn [nth map]. rewrite Rminus_diag, exp_float32_0.
  rewrite exp_float32_exact by lra.
  unfold sum_R. cbn [foldr]. replace (0 - a)%R with (- a)%R by lra.
  unfold Rdiv. rewrite Rmult_1_l. f_equal. lra.
Qed.

Lemma sqrt_4 : sqrt (IZR 4) = 2%R.
Proof. replace (IZR 4) with (2 * 2)%R by lra. apply sqrt_square. lra. Qed.

Lemma locality_attention_temperature_witness :
  exists self output scores output' scores',
    multiheadattention_init Keras3 1 4 0.1 = Ok self /\
    compute_attention (fun s => s) self [[[1; 0]]]%R [[[1; 0]; [0; 1]]]%R
      [[[5; 6]; [7; 8]]]%R None = Ok (output, scores) /\
    standard_compute_attention (fun s => s) self [[[1; 0]]]%R [[[1; 0]; [0; 1]]]%R
      [[[5; 6]; [7; 8]]]%R None = Ok (output', scores') /\
    nth 0 (nth 0 (nth 0 scores []) []) 0%R = (/ (1 + exp (- 1)))%R /\
    nth 0 (nth 0 (nth 0 scores' []) []) 0%R = (/ (1 + exp (- (1 / 2))))%R /\
    scores <> scores'.
Proof.
  destruct (locality_attention_temperature (fun s => s) 1 4 0.1)
    as (base & Hbase & Hflag & Hinit & Hcompute & _); [lia |].
  assert (Hdim : getattr_int base "_key_dim" = Ok 4).
  { injection Hbase as <-. reflexivity. }
  assert (Hcode : masked_softmax
                    (dot_product_equation [[[1; 0]; [0; 1]]]%R [[[1; 0]]]%R) None
                  = [[softmax [1; 0]%R]]).
  { unfold masked_softmax, dot_product_equation. cbn [zip_with map].
    do 3 f_equal. unfold dot, sum_R. cbn [zip_with foldr].
    f_equal; [lra | f_equal; lra]. }
  assert (Hstd : masked_softmax
                   (map (map (map (fun s => s / sqrt (IZR 4))%R))
                      (dot_product_equation [[[1; 0]; [0; 1]]]%R [[[1; 0]]]%R)) None
                 = [[softmax [1 / 2; 0]%R]]).
  { unfold masked_softmax, dot_product_equation. cbn [zip_with map].
    do 3 f_equal. rewrite sqrt_4. unfold dot, sum_R. cbn [zip_with foldr].
    f_equal; [lra | f_equal; lra]. }
  assert (Hfirst : nth 0 (softmax [1; 0]%R) 0%R = (/ (1 + exp (- 1)))%R)
    by (apply softmax_pair; lra).
  assert (Hfirst' : nth 0 (softmax [1 / 2; 0]%R) 0%R = (/ (1 + exp (- (1 / 2))))%R)
    by (apply softmax_pair; lra).
  exists base. eexists _, _, _, _.
  split; [exact Hinit |]. split; [apply Hcompute |].
  split; [unfold standard_compute_attention; rewrite Hdim; reflexivity |].
  cbv zeta. rewrite Hcode, Hstd. cbn [nth].
  split; [exact Hfirst |]. split; [exact Hfirst' |].
  intros Heq.
  apply (f_equal (fun s : list matrix => nth 0 (nth 0 (nth 0 s []) []) 0%R)) in Heq.
  cbn [nth] in Heq. rewrite Hfirst, Hfirst' in Heq.
  assert (Hexp : (exp (- 1) < exp (- (1 / 2)))%R) by (apply exp_increasing; lra).
  pose proof (exp_pos (- 1)) as Hpos.
  assert (Hinv : (/ (1 + exp (- (1 / 2))) < / (1 + exp (- 1)))%R)
    by (apply Rinv_0_lt_contravar; lra).
  lra.
Defined.

(** *** Encoder block *)

Section EncoderFacts.
Variable gelu : R -> R.
Variable dropout : R -> matrix -> matrix.
Variable dropout_layer : list matrix -> list matrix.

(** Whatever the feed-forward branch computes, a block that returns gives
    the normalised first residual plus that residual. *)
Lemma encoder_block_output (hp : hyperparameters) (vanilla : bool) (w : block_weights)
    (encoded_patches out : matrix) :
  encoder_block gelu dropout dropout_layer hp vanilla w encoded_patches = Ok out ->
  exists x2 : matrix,
    out = zip_with (zip_with Rplus) (map (layer_norm_vector 1e-6 (norm2 w)) x2) x2.
Proof.
  unfold encoder_block. cbn [layer_norm_call]. run.
  destruct (if negb vanilla then _ else _) as [attention_output | e]; run; [| discriminate].
  destruct (add_call attention_output encoded_patches) as [x2 | e]; run; [| discriminate].
  destruct (mlp _ _ _ _ _ _) as [ff | e]; run; [| discriminate].
  destruct (subtract _ _) as [d | e]; run; [| discriminate].
  unfold add_call. case_bool_decide; [| discriminate].
  intros [= <-]. now exists x2.
Qed.

End EncoderFacts.

Lemma mean_pair (a b : R) : mean [a; b] = ((a + b) / 2)%R.
Proof. unfold mean, sum_R. cbn. lra. Qed.

(** C1: with the attention branch and the feed-forward weights forced to
    zero, the block applied to the one-token sequence [[1; 3]] returns the
    normalised input added to the input, not the input: the feed-forward
    output is computed and dropped. *)
Theorem encoder_block_not_identity (gelu : R -> R) :
  exists out,
    encoder_block gelu (fun _ x => x) (fun scores => scores)
      small_hyperparameters true silent_block [[1; 3]]%R = Ok out /\
    out = [[(0 + 1 - 2) / sqrt (1 + 1e-6) * 1 + 0 + (0 + 1);
            (0 + 3 - 2) / sqrt (1 + 1e-6) * 1 + 0 + (0 + 3)]]%R /\
    out <> [[1; 3]]%R.
Proof.
  eexists. split; [reflexivity |].
  assert (Hmean : mean [0 + 1; 0 + 3]%R = 2%R) by (rewrite mean_pair; lra).
  assert (Hvar : variance [0 + 1; 0 + 3]%R = 1%R).
  { unfold variance. cbn [map]. rewrite Hmean, mean_pair. lra. }
  assert (Hpos : (0 < sqrt (1 + 1e-6))%R) by (apply sqrt_lt_R0; lra).
  split.
  - cbn [zip_with map layer_norm_vector imap norm2 attention project_output silent_block
           silent_attention fresh_norm gamma beta compose].
    rewrite Hvar, Hmean. reflexivity.
  - cbn [zip_with map layer_norm_vector imap norm2 attention project_output silent_block
           silent_attention fresh_norm gamma beta compose].
    rewrite Hvar, Hmean. intros [= Hfirst _].
    assert (Hq : ((0 + 1 - 2) / sqrt (1 + 1e-6) < 0)%R).
    { unfold Rdiv. apply Rmult_neg_pos; [lra | now apply Rinv_0_lt_compat]. }
    lra.
Qed.

(** The feed-forward branch of the sample block is indeed zero for any
    activation that fixes zero, as the error function GELU does. *)
Lemma silent_feed_forward_zero (gelu : R -> R) (x : list R) :
  gelu 0%R = 0%R ->
  exists ff,
    mlp gelu (fun _ y => y) (feed_forward silent_block) [x]
      (transformer_units small_hyperparameters) 0.1 = Ok ff /\
    Forall (Forall (fun y => y = 0%R)) ff.
Proof.
  intros Hgelu. eexists. split; [reflexivity |].
  assert (Hzero : forall (f : nat -> R -> R) (v : list R),
             (forall i xi, f i xi = 0%R) -> sum_R (imap f v) = 0%R).
  { intros f v. revert f. unfold sum_R.
    induction v as [| a v IH]; intros f Hf; cbn; [reflexivity |].
    rewrite Hf, IH; [lra |]. intros i xi. apply Hf. }
  repeat constructor; cbn [kernel bias zero_dense feed_forward silent_block];
    (rewrite Hzero by (intros; ring)); rewrite Rplus_0_r; exact Hgelu.
Qed.

(** *** The shift operation once [half_patch] is readable *)

Section CropPadShapes.
Variables (h w c : nat) (img : image).
Hypothesis Hshape : has_shape h w c img.

Lemma crop_to_bounding_box_shape (offset_height offset_width target_height target_width : Z) :
  0 <= offset_height -> 0 <= offset_width -> 0 < target_height -> 0 < target_width ->
  target_width + offset_width <= Z.of_nat w ->
  target_height + offset_height <= Z.of_nat h ->
  exists out,
    crop_to_bounding_box img offset_height offset_width target_height target_width = Ok out /\
    has_shape (Z.to_nat target_height) (Z.to_nat target_width) c out.
Proof.
  intros Hoh How Hth Htw Hw Hh. unfold crop_to_bounding_box.
  rewrite (height_shape h w c img Hshape), (width_shape h w c img Hshape) by lia.
  repeat match goal with
         | |- context [?a <? ?b] => replace (a <? b) with false by (symmetry; apply Z.ltb_ge; lia)
         | |- context [?a <=? ?b] => replace (a <=? b) with false by (symmetry; apply Z.leb_gt; lia)
         end.
  eexists. split; [reflexivity |].
  destruct Hshape as [Hlen Hrows]. split.
  - rewrite length_map, length_take, length_drop. lia.
  - apply Forall_map, Forall_take, Forall_drop.
    eapply Forall_impl; [exact Hrows |]. intros row [Hrow Hpx]. cbn beta. split.
    + rewrite length_take, length_drop. lia.
    + now apply Forall_take, Forall_drop.
Qed.

Lemma pad_to_bounding_box_shape (offset_height offset_width target_height target_width : Z) :
  (0 < h)%nat -> (0 < w)%nat ->
  0 <= offset_height -> 0 <= offset_width ->
  Z.of_nat w + offset_width <= target_width ->
  Z.of_nat h + offset_height <= target_height ->
  exists out,
    pad_to_bounding_box img offset_height offset_width target_height target_width = Ok out /\
    has_shape (Z.to_nat target_height) (Z.to_nat target_width) c out.
Proof.
  intros Hhpos Hwpos Hoh How Hw Hh. unfold pad_to_bounding_box.
  rewrite (height_shape h w c img Hshape), (width_shape h w c img Hshape) by lia.
  rewrite (channels_shape h w c img Hshape) by lia.
  repeat match goal with
         | |- context [?a <? ?b] => replace (a <? b) with false by (symmetry; apply Z.ltb_ge; lia)
         end.
  eexists. split; [reflexivity |].
  destruct Hshape as [Hlen Hrows]. rewrite Nat2Z.id.
  assert (Hzero : Forall (fun px : list R => length px = c) [replicate c 0%R]).
  { constructor; [apply length_replicate | constructor]. }
  apply Forall_cons in Hzero as [Hzero _].
  split.
  - rewrite !length_app, !length_replicate, length_map. lia.
  - rewrite !Forall_app. split; [| split].
    + apply Forall_replicate. split; [apply length_replicate | now apply Forall_replicate].
    + apply Forall_map. eapply Forall_impl; [exact Hrows |].
      intros row [Hrow Hpx]. cbn beta. split.
      * rewrite !length_app, !length_replicate. lia.
      * rewrite !Forall_app. repeat split; [now apply Forall_replicate | exact Hpx |
                                              now apply Forall_replicate].
    + apply Forall_replicate. split; [apply length_replicate | now apply Forall_replicate].
Qed.

End CropPadShapes.

Section RepairedTokenizer.
Variables (image_size patch_size num_patches projection_dim : Z) (vanilla : bool).

Let repaired : object :=
  <["half_patch" := VInt (patch_size / 2)]>
    (<["layer_norm" := VLayerNorm layer_norm_eps]>
       (<["projection" := VDense projection_dim]>
          (<["flatten_patches" := VReshape num_patches]>
             (<["haff_patch" := VInt (patch_size / 2)]>
                (<["patch_size" := VInt patch_size]>
                   (<["image_size" := VInt image_size]>
                      (<["vanilla" := VBool vanilla]> ∅))))))).

Lemma with_half_patch_eq (self : object) :
  shiftedpatch_init image_size patch_size num_patches projection_dim vanilla = Ok self ->
  with_half_patch self = repaired.
Proof. intros Hinit. apply shiftedpatch_init_inv in Hinit as [_ ->]. reflexivity. Qed.

Lemma repaired_half_patch : getattr_int repaired "half_patch" = Ok (patch_size / 2).
Proof. reflexivity. Qed.
Lemma repaired_image_size : getattr_int repaired "image_size" = Ok image_size.
Proof. reflexivity. Qed.

(** With [half_patch] readable, [crop_shift_pad] is the table of the
    specification. *)
Lemma crop_shift_pad_table (self : object) (images : image) (mode : string) :
  shiftedpatch_init image_size patch_size num_patches projection_dim vanilla = Ok self ->
  crop_shift_pad (with_half_patch self) images mode
  = shift_by_table image_size (patch_size / 2) images mode.
Proof.
  intros Hinit. rewrite (with_half_patch_eq self Hinit).
  unfold crop_shift_pad, shift_by_table, shift_offsets.
  rewrite repaired_half_patch, repaired_image_size.
  destruct (String.eqb mode "left-up");
    [| destruct (String.eqb mode "left-down");
       [| destruct (String.eqb mode "right-up")]];
    reflexivity.
Qed.

(** The shifted copy has the size of the image it was made from. *)
Lemma crop_shift_pad_restores_size (self : object) (c : nat) (images : image) (mode : string) :
  shiftedpatch_init image_size patch_size num_patches projection_dim vanilla = Ok self ->
  0 <= patch_size / 2 < image_size ->
  has_shape (Z.to_nat image_size) (Z.to_nat image_size) c images ->
  exists shifted,
    crop_shift_pad (with_half_patch self) images mode = Ok shifted /\
    has_shape (Z.to_nat image_size) (Z.to_nat image_size) c shifted.
Proof.
  intros Hinit Hhalf Hshape. rewrite (crop_shift_pad_table self images mode Hinit).
  unfold shift_by_table, shift_offsets.
  set (half := patch_size / 2) in *.
  assert (Hcrop : forall top left, 0 <= top <= half -> 0 <= left <= half ->
            exists crop,
              crop_to_bounding_box images top left (image_size - half) (image_size - half)
              = Ok crop /\
              has_shape (Z.to_nat (image_size - half)) (Z.to_nat (image_size - half)) c crop).
  { intros top left Htop Hleft.
    apply (crop_to_bounding_box_shape _ _ _ images Hshape); lia. }
  assert (Hpad : forall crop top left, 0 <= top <= half -> 0 <= left <= half ->
            has_shape (Z.to_nat (image_size - half)) (Z.to_nat (image_size - half)) c crop ->
            exists shifted,
              pad_to_bounding_box crop top left image_size image_size = Ok shifted /\
              has_shape (Z.to_nat image_size) (Z.to_nat image_size) c shifted).
  { intros crop top left Htop Hleft Hc.
    apply (pad_to_bounding_box_shape _ _ _ crop Hc); lia. }
  destruct (String.eqb mode "left-up");
    [| destruct (String.eqb mode "left-down");
       [| destruct (String.eqb mode "right-up")]].
  all: match goal with
       | |- context [crop_to_bounding_box _ ?top ?left _ _] =>
           destruct (Hcrop top left) as (crop & -> & Hc); [lia | lia |]
       end; run; apply Hpad; [lia | lia | exact Hc].
Qed.

End RepairedTokenizer.

(** *** The locality path once [half_patch] is readable *)

Lemma Forall_zip_with_both {A B C} (f : A -> B -> C)
    (P : A -> Prop) (Q : B -> Prop) (T : C -> Prop) (a : list A) (b : list B) :
  (forall x y, P x -> Q y -> T (f x y)) ->
  Forall P a -> Forall Q b -> Forall T (zip_with f a b).
Proof.
  intros Hf Ha. revert b. induction Ha as [| x a Hx _ IH]; intros [| y b] Hb;
    cbn [zip_with]; try constructor.
  - apply Forall_cons in Hb as [Hy _]. now apply Hf.
  - apply Forall_cons in Hb as [_ Hb]. now apply IH.
Qed.

Lemma concat_channels2_shape (h w c1 c2 : nat) (a b : image) :
  has_shape h w c1 a -> has_shape h w c2 b ->
  exists ab, concat_channels2 a b = Ok ab /\ has_shape h w (c1 + c2) ab.
Proof.
  intros Ha Hb. unfold concat_channels2.
  rewrite (height_shape _ _ _ a Ha), (height_shape _ _ _ b Hb), Z.eqb_refl.
  assert (Hwidth : width a = width b).
  { destruct h as [| h'].
    - destruct Ha as [Ha _], Hb as [Hb _].
      destruct a; [| discriminate]. destruct b; [reflexivity | discriminate].
    - rewrite (width_shape _ _ _ a Ha), (width_shape _ _ _ b Hb) by lia. reflexivity. }
  rewrite Hwidth, Z.eqb_refl. cbn [andb]. eexists. split; [reflexivity |].
  destruct Ha as [Hla Hra], Hb as [Hlb Hrb]. split.
  - rewrite length_zip_with_same; lia.
  - eapply Forall_zip_with_both; [| exact Hra | exact Hrb].
    intros row row' [Hrow Hpx] [Hrow' Hpx']. cbn beta in *. split.
    + rewrite length_zip_with_same; lia.
    + eapply Forall_zip_with_both; [| exact Hpx | exact Hpx'].
      intros px px' Hlen Hlen'. cbn beta in *. rewrite length_app. lia.
Qed.

(** The image and its four shifted copies, stacked along the channels. *)
Lemma concat_channels_five_shape (h w c : nat) (a b1 b2 b3 b4 : image) :
  has_shape h w c a -> has_shape h w c b1 -> has_shape h w c b2 ->
  has_shape h w c b3 -> has_shape h w c b4 ->
  exists out, concat_channels a [b1; b2; b3; b4] = Ok out /\ has_shape h w (5 * c) out.
Proof.
  intros Ha H1 H2 H3 H4. cbn [concat_channels].
  destruct (concat_channels2_shape _ _ _ _ a b1 Ha H1) as (x1 & -> & Hx1). run.
  destruct (concat_channels2_shape _ _ _ _ x1 b2 Hx1 H2) as (x2 & -> & Hx2). run.
  destruct (concat_channels2_shape _ _ _ _ x2 b3 Hx2 H3) as (x3 & -> & Hx3). run.
  destruct (concat_channels2_shape _ _ _ _ x3 b4 Hx3 H4) as (x4 & -> & Hx4). run.
  exists x4. split; [reflexivity |].
  replace (5 * c)%nat with (c + c + c + c + c)%nat by lia. exact Hx4.
Qed.

(** Had the constructor stored the half-patch size under [half_patch], the
    locality path would return (image_size / patch_size) squared tokens made
    from patch vectors five times as long as those of the vanilla path. *)
Lemma repaired_locality_call_shape (w : tokenizer_weights)
    (image_size patch_size projection_dim : Z) (c : nat) (self : object) (img : image) :
  0 < patch_size -> 0 < image_size -> image_size mod patch_size = 0 ->
  has_shape (Z.to_nat image_size) (Z.to_nat image_size) c img ->
  shiftedpatch_init image_size patch_size ((image_size / patch_size) ^ 2)
    projection_dim false = Ok self ->
  exists tokens patches,
    shiftedpatch_call w (with_half_patch self) img = Ok (tokens, patches) /\
    Z.of_nat (length tokens) = (image_size / patch_size) ^ 2 /\
    Forall (Forall (fun v : list R =>
                      Z.of_nat (length v) = 5 * (patch_size * patch_size * Z.of_nat c)))
           patches.
Proof.
  intros Hp Hs Hdiv Hshape Hinit.
  assert (Hle : patch_size <= image_size).
  { apply Z.mod_divide in Hdiv; [| lia]. apply Z.divide_pos_le in Hdiv; lia. }
  assert (Hhalf : 0 <= patch_size / 2 < image_size).
  { split; [apply Z.div_pos; lia |]. pose proof (Z.div_lt patch_size 2). lia. }
  pose proof (with_half_patch_eq _ _ _ _ _ self Hinit) as Hself.
  assert (Hvan : getattr_bool (with_half_patch self) "vanilla" = Ok false)
    by (rewrite Hself; reflexivity).
  assert (Hps : getattr_int (with_half_patch self) "patch_size" = Ok patch_size)
    by (rewrite Hself; reflexivity).
  assert (Hflat : getattr (with_half_patch self) "flatten_patches"
                  = Ok (VReshape ((image_size / patch_size) ^ 2)))
    by (rewrite Hself; reflexivity).
  assert (Hproj : getattr (with_half_patch self) "projection" = Ok (VDense projection_dim))
    by (rewrite Hself; reflexivity).
  assert (Hln : getattr (with_half_patch self) "layer_norm" = Ok (VLayerNorm layer_norm_eps))
    by (rewrite Hself; reflexivity).
  clear Hself.
  destruct (crop_shift_pad_restores_size _ _ _ _ _ self c img "left-up" Hinit Hhalf Hshape)
    as (left_up & Hlu & Slu).
  destruct (crop_shift_pad_restores_size _ _ _ _ _ self c img "left-down" Hinit Hhalf Hshape)
    as (left_down & Hld & Sld).
  destruct (crop_shift_pad_restores_size _ _ _ _ _ self c img "right-up" Hinit Hhalf Hshape)
    as (right_up & Hru & Sru).
  destruct (crop_shift_pad_restores_size _ _ _ _ _ self c img "right-down" Hinit Hhalf Hshape)
    as (right_down & Hrd & Srd).
  destruct (concat_channels_five_shape _ _ _ img left_up left_down right_up right_down
              Hshape Slu Sld Sru Srd) as (stacked & Hcat & Sstacked).
  set (p := Z.to_nat patch_size) in *. set (s := Z.to_nat image_size) in *.
  assert (Hp' : (0 < p)%nat) by (subst p; lia).
  destruct (extract_patches_shape s s (5 * c) p stacked Sstacked Hp')
    as (patches & Hext & Hlen & Hrows).
  assert (Hpz : Z.of_nat p = patch_size) by (subst p; lia).
  rewrite Hpz in Hext.
  assert (Hq : image_size / patch_size = Z.of_nat (s / p)).
  { subst s p. rewrite Nat2Z.inj_div, !Z2Nat.id by lia. reflexivity. }
  assert (Hqpos : (0 < s / p)%nat).
  { apply Nat2Z.inj_lt. rewrite <- Hq. cbn [Z.of_nat]. apply Z.div_str_pos. lia. }
  pose proof (patch_grid_flat_length _ _ _ patches Hlen Hrows) as Hflatlen.
  set (n := (s / p)%nat) in *. set (k := (p * p * (5 * c))%nat) in *.
  assert (Hrows_eq : (image_size / patch_size) ^ 2 = Z.of_nat (n * n)).
  { rewrite Hq. lia. }
  exists (map (dense_vector (projection_weights w) (Z.to_nat projection_dim))
            (map (layer_norm_vector layer_norm_eps (layer_norm_weights w))
               (chunks k (n * n) (concat (concat patches))))), patches.
  split; [| split].
  - unfold shiftedpatch_call. rewrite Hvan. run.
    rewrite Hlu, Hld, Hru, Hrd. run. rewrite Hcat. run.
    rewrite Hps. run. rewrite Hext. run. rewrite Hflat. run.
    unfold reshape_call. rewrite Hflatlen, Hrows_eq.
    replace (Z.of_nat (n * n) <=? 0) with false by (symmetry; apply Z.leb_gt; lia).
    replace (Z.of_nat (n * n * k)) with (Z.of_nat k * Z.of_nat (n * n)) by lia.
    rewrite Z.mod_mul by lia. rewrite Z.div_mul by lia.
    cbn [orb negb Z.eqb]. run.
    rewrite Hln. run. cbn [layer_norm_call]. run.
    rewrite Hproj. run. unfold dense_call.
    now rewrite !Nat2Z.id.
  - rewrite !length_map, chunks_length. lia.
  - eapply Forall_impl; [exact Hrows |]. intros row [_ Hk].
    eapply Forall_impl; [exact Hk |]. intros v Hv. cbn beta in *. rewrite Hv. subst k. lia.
Qed.

(** *** More on the schedule *)

(** X1: every evaluation of the rate raises, and the construction parameters
    alone decide which error: the total-steps value error, else the
    base-rate value error, else the attribute error of the last line. *)
Theorem rate_always_raises
    (learning_rate_base : R) (total_steps : Z) (warmup_learning_rate : R)
    (warmup_steps step : Z) :
  (total_steps < warmup_steps /\
   rate learning_rate_base total_steps warmup_learning_rate warmup_steps step
   = Raise (ValueError "Total Steps must be larger or equal to warmup steps")) \/
  (warmup_steps <= total_steps /\ 0 < warmup_steps /\
   (learning_rate_base < warmup_learning_rate)%R /\
   rate learning_rate_base total_steps warmup_learning_rate warmup_steps step
   = Raise (ValueError "Base learning rate must be larger than warmup learning rate")) \/
  (valid_schedule learning_rate_base total_steps warmup_learning_rate warmup_steps /\
   rate learning_rate_base total_steps warmup_learning_rate warmup_steps step
   = Raise (AttributeError "total_Steps")).
Proof.
  unfold rate. rewrite warmupcosine_init_eq. run.
  destruct (Z_lt_le_dec total_steps warmup_steps) as [Hlt | Hle].
  - left. split; [exact Hlt | now apply call_total_below_warmup].
  - right.
    destruct (Z_lt_le_dec 0 warmup_steps) as [Hpos | Hzero].
    + destruct (Rlt_dec learning_rate_base warmup_learning_rate) as [Hrate | Hrate].
      * left. repeat split; try assumption. now apply call_base_below_warmup_rate.
      * right. assert (Hvalid : valid_schedule learning_rate_base total_steps
                                  warmup_learning_rate warmup_steps).
        { split; [exact Hle | intros _; lra]. }
        split; [exact Hvalid | now apply call_reaches_clamp].
    + right. assert (Hvalid : valid_schedule learning_rate_base total_steps
                                warmup_learning_rate warmup_steps).
      { split; [exact Hle | intros Hpos; lia]. }
      split; [exact Hvalid | now apply call_reaches_clamp].
Qed.

(** The completed schedule returns the piecewise rate. *)
Lemma completed_rate_eq
    (learning_rate_base : R) (total_steps : Z) (warmup_learning_rate : R)
    (warmup_steps step : Z) :
  valid_schedule learning_rate_base total_steps warmup_learning_rate warmup_steps ->
  completed_rate learning_rate_base total_steps warmup_learning_rate warmup_steps step
  = Ok (if total_steps <? step then 0
        else if (0 <? warmup_steps) && (step <? warmup_steps)
             then (learning_rate_base - warmup_learning_rate) / IZR warmup_steps * IZR step
                  + warmup_learning_rate
             else 0.5 * learning_rate_base
                  * (1 + cos (PI * (IZR step - IZR warmup_steps)
                              / IZR (total_steps - warmup_steps))))%R.
Proof.
  intros Hvalid. unfold completed_rate. rewrite warmupcosine_init_eq. run.
  rewrite <- (call_with_total_Steps _ _ _ _ step Hvalid). reflexivity.
Qed.

(** X2: on a completed schedule with valid parameters the rate starts at
    the warmup start rate (when there is a warmup phase), equals the base
    rate at the end of the warmup, is 0 at the last step, and stays 0 after
    it. *)
Theorem completed_rate_endpoints
    (learning_rate_base : R) (total_steps : Z) (warmup_learning_rate : R)
    (warmup_steps : Z) :
  valid_schedule learning_rate_base total_steps warmup_learning_rate warmup_steps ->
  (0 < warmup_steps ->
   completed_rate learning_rate_base total_steps warmup_learning_rate warmup_steps 0
   = Ok warmup_learning_rate) /\
  (warmup_steps < total_steps ->
   completed_rate learning_rate_base total_steps warmup_learning_rate warmup_steps
     warmup_steps = Ok learning_rate_base) /\
  (warmup_steps < total_steps ->
   completed_rate learning_rate_base total_steps warmup_learning_rate warmup_steps
     total_steps = Ok 0%R) /\
  (forall step, total_steps < step ->
   completed_rate learning_rate_base total_steps warmup_learning_rate warmup_steps step
   = Ok 0%R).
Proof.
  intros Hvalid. pose proof Hvalid as [Hle Hrate].
  split; [| split; [| split]].
  - intros Hpos. rewrite completed_rate_eq by exact Hvalid.
    replace (total_steps <? 0) with false by (symmetry; apply Z.ltb_ge; lia).
    replace (0 <? warmup_steps) with true by (symmetry; apply Z.ltb_lt; lia).
    cbn [andb]. f_equal. rewrite Rmult_0_r. apply Rplus_0_l.
  - intros Hlt. rewrite completed_rate_eq by exact Hvalid.
    replace (total_steps <? warmup_steps) with false by (symmetry; apply Z.ltb_ge; lia).
    rewrite Z.ltb_irrefl, andb_false_r. f_equal.
    unfold Rminus. rewrite Rplus_opp_r, Rmult_0_r. unfold Rdiv. rewrite Rmult_0_l, cos_0. lra.
  - intros Hlt. rewrite completed_rate_eq by exact Hvalid.
    rewrite Z.ltb_irrefl.
    replace (total_steps <? warmup_steps) with false by (symmetry; apply Z.ltb_ge; lia).
    rewrite andb_false_r. f_equal.
    rewrite <- minus_IZR.
    replace (PI * IZR (total_steps - warmup_steps) / IZR (total_steps - warmup_steps))%R
      with PI.
    + rewrite cos_PI. lra.
    + field. apply not_0_IZR. lia.
  - intros step Hstep. rewrite completed_rate_eq by exact Hvalid.
    now replace (total_steps <? step) with true by (symmetry; apply Z.ltb_lt; lia).
Qed.

Lemma completed_rate_endpoints_witness :
  completed_rate 0.001 100 0.0 10 0 = Ok 0.0%R /\
  completed_rate 0.001 100 0.0 10 10 = Ok 0.001%R /\
  completed_rate 0.001 100 0.0 10 100 = Ok 0%R.
Proof.
  assert (Hvalid : valid_schedule 0.001 100 0.0 10) by (split; [lia | intros _; lra]).
  destruct (completed_rate_endpoints 0.001 100 0.0 10 Hvalid) as (H0 & Hw & Ht & _).
  split; [apply H0; lia | split; [apply Hw; lia | apply Ht; lia]].
Defined.

(** X3: on a completed schedule with valid parameters the rate never
    decreases during the warmup phase. *)
Theorem completed_rate_warmup_monotone
    (learning_rate_base : R) (total_steps : Z) (warmup_learning_rate : R)
    (warmup_steps step step' : Z) :
  valid_schedule learning_rate_base total_steps warmup_learning_rate warmup_steps ->
  0 <= step <= step' -> step' < warmup_steps ->
  exists r r',
    completed_rate learning_rate_base total_steps warmup_learning_rate warmup_steps step
    = Ok r /\
    completed_rate learning_rate_base total_steps warmup_learning_rate warmup_steps step'
    = Ok r' /\
    (r <= r')%R.
Proof.
  intros Hvalid Hsteps Hwarm. pose proof Hvalid as [Hle Hrate].
  rewrite !completed_rate_eq by exact Hvalid.
  replace (total_steps <? step) with false by (symmetry; apply Z.ltb_ge; lia).
  replace (total_steps <? step') with false by (symmetry; apply Z.ltb_ge; lia).
  replace (0 <? warmup_steps) with true by (symmetry; apply Z.ltb_lt; lia).
  replace (step <? warmup_steps) with true by (symmetry; apply Z.ltb_lt; lia).
  replace (step' <? warmup_steps) with true by (symmetry; apply Z.ltb_lt; lia).
  cbn [andb]. eexists _, _. split; [reflexivity |]. split; [reflexivity |].
  assert (Hslope : (0 <= (learning_rate_base - warmup_learning_rate) / IZR warmup_steps)%R).
  { apply Rmult_le_pos; [specialize (Hrate ltac:(lia)); lra |].
    apply Rlt_le, Rinv_0_lt_compat, IZR_lt. lia. }
  assert (Hstep : (IZR step <= IZR step')%R) by (apply IZR_le; lia).
  apply Rplus_le_compat_r. now apply Rmult_le_compat_l.
Qed.

Lemma completed_rate_warmup_monotone_witness :
  exists r r',
    completed_rate 0.001 100 0.0 10 2 = Ok r /\
    completed_rate 0.001 100 0.0 10 7 = Ok r' /\ (r <= r')%R.
Proof.
  apply (completed_rate_warmup_monotone 0.001 100 0.0 10 2 7);
    [split; [lia | intros _; lra] | lia | lia].
Defined.

(** X4: on a completed schedule with valid parameters, a decay phase that
    is not empty (warmup_steps < total_steps) and a non-negative base rate,
    the rate never increases from the end of the warmup to the last step. *)
Theorem completed_rate_decay_monotone
    (learning_rate_base : R) (total_steps : Z) (warmup_learning_rate : R)
    (warmup_steps step step' : Z) :
  valid_schedule learning_rate_base total_steps warmup_learning_rate warmup_steps ->
  warmup_steps < total_steps ->
  (0 <= learning_rate_base)%R ->
  warmup_steps <= step -> step <= step' -> step' <= total_steps ->
  exists r r',
    completed_rate learning_rate_base total_steps warmup_learning_rate warmup_steps step
    = Ok r /\
    completed_rate learning_rate_base total_steps warmup_learning_rate warmup_steps step'
    = Ok r' /\
    (r' <= r)%R.
Proof.
  intros Hvalid Hdecay Hbase Hlo Hsteps Hhi.
  rewrite !completed_rate_eq by exact Hvalid.
  replace (total_steps <? step) with false by (symmetry; apply Z.ltb_ge; lia).
  replace (total_steps <? step') with false by (symmetry; apply Z.ltb_ge; lia).
  replace (step <? warmup_steps) with false by (symmetry; apply Z.ltb_ge; lia).
  replace (step' <? warmup_steps) with false by (symmetry; apply Z.ltb_ge; lia).
  rewrite andb_false_r. eexists _, _. split; [reflexivity |]. split; [reflexivity |].
  destruct (Z.eq_dec step step') as [<- | Hne]; [lra |].
  assert (Hspan : (0 < IZR (total_steps - warmup_steps))%R) by (apply IZR_lt; lia).
  assert (Hfrac : forall k, warmup_steps <= k <= total_steps ->
            (0 <= PI * (IZR k - IZR warmup_steps) / IZR (total_steps - warmup_steps) <= PI)%R).
  { intros k Hk. pose proof PI_RGT_0 as Hpi.
    rewrite <- minus_IZR.
    assert (H0 : (0 <= IZR (k - warmup_steps))%R) by (apply IZR_le; lia).
    assert (H1 : (IZR (k - warmup_steps) <= IZR (total_steps - warmup_steps))%R)
      by (apply IZR_le; lia).
    split.
    - apply Rmult_le_pos; [apply Rmult_le_pos; lra |].
      now apply Rlt_le, Rinv_0_lt_compat.
    - apply (Rmult_le_reg_r (IZR (total_steps - warmup_steps))); [exact Hspan |].
      unfold Rdiv. rewrite Rmult_assoc, Rinv_l by lra. nra. }
  assert (Hcos : (cos (PI * (IZR step' - IZR warmup_steps) / IZR (total_steps - warmup_steps))
                  <= cos (PI * (IZR step - IZR warmup_steps)
                          / IZR (total_steps - warmup_steps)))%R).
  { apply cos_decr_1; try (apply Hfrac; lia).
    unfold Rdiv. apply Rmult_le_compat_r; [now apply Rlt_le, Rinv_0_lt_compat |].
    apply Rmult_le_compat_l; [pose proof PI_RGT_0; lra |].
    apply Rplus_le_compat_r, IZR_le. lia. }
  nra.
Qed.

Lemma completed_rate_decay_monotone_witness :
  exists r r',
    completed_rate 0.001 100 0.0 10 20 = Ok r /\
    completed_rate 0.001 100 0.0 10 90 = Ok r' /\ (r' <= r)%R.
Proof.
  apply (completed_rate_decay_monotone 0.001 100 0.0 10 20 90);
    [split; [lia | intros _; lra] | lia | lra | lia | lia | lia].
Defined.

(** X5: on a completed schedule with valid parameters and non-negative
    rates, the rate of every non-negative step lies between 0 and the base
    rate; the one step left out is the last one of a schedule without decay
    phase (step = total_steps = warmup_steps), where the cosine rate has a
    zero divisor. *)
Theorem completed_rate_range
    (learning_rate_base : R) (total_steps : Z) (warmup_learning_rate : R)
    (warmup_steps step : Z) :
  valid_schedule learning_rate_base total_steps warmup_learning_rate warmup_steps ->
  warmup_steps < total_steps \/ step <> total_steps ->
  (0 <= learning_rate_base)%R -> (0 <= warmup_learning_rate)%R -> 0 <= step ->
  exists r,
    completed_rate learning_rate_base total_steps warmup_learning_rate warmup_steps step
    = Ok r /\
    (0 <= r <= learning_rate_base)%R.
Proof.
  intros Hvalid _ Hbase Hstart Hstep. pose proof Hvalid as [Hle Hrate].
  rewrite completed_rate_eq by exact Hvalid. eexists. split; [reflexivity |].
  destruct (total_steps <? step); [lra |].
  destruct (0 <? warmup_steps) eqn:Hpos; cbn [andb].
  - apply Z.ltb_lt in Hpos. specialize (Hrate Hpos).
    destruct (step <? warmup_steps) eqn:Hwarm.
    + apply Z.ltb_lt in Hwarm.
      assert (Hs : (0 < IZR warmup_steps)%R) by (apply IZR_lt; lia).
      assert (Hk : (0 <= IZR step)%R) by (apply IZR_le; lia).
      assert (Hk' : (IZR step <= IZR warmup_steps)%R) by (apply IZR_le; lia).
      assert (Hslope : (0 <= (learning_rate_base - warmup_learning_rate)
                             / IZR warmup_steps)%R).
      { apply Rmult_le_pos; [lra | now apply Rlt_le, Rinv_0_lt_compat]. }
      split; [nra |].
      assert (Hfull : ((learning_rate_base - warmup_learning_rate) / IZR warmup_steps
                       * IZR warmup_steps
                       = learning_rate_base - warmup_learning_rate)%R) by (field; lra).
      nra.
    + pose proof (COS_bound (PI * (IZR step - IZR warmup_steps)
                             / IZR (total_steps - warmup_steps))). nra.
  - pose proof (COS_bound (PI * (IZR step - IZR warmup_steps)
                           / IZR (total_steps - warmup_steps))). nra.
Qed.

Lemma completed_rate_range_witness :
  exists r, completed_rate 0.001 100 0.0 10 55 = Ok r /\ (0 <= r <= 0.001)%R.
Proof.
  apply (completed_rate_range 0.001 100 0.0 10 55);
    [split; [lia | intros _; lra] | left; lia | lra | lra | lia].
Defined.

(** *** More on the tokenizer *)

Lemma nth_concat_uniform {A} (k : nat) (l : list (list A)) (i j : nat) (d : A) :
  Forall (fun x => length x = k) l -> (j < k)%nat ->
  nth (i * k + j) (concat l) d = nth j (nth i l []) d.
Proof.
  intros Hl Hj. revert i. induction Hl as [| x l Hx _ IH]; intros i.
  - assert (Hnil : forall B (n : nat) (e : B), nth n [] e = e) by (intros B [|] e; reflexivity).
    cbn [concat]. now rewrite !Hnil.
  - cbn [concat]. destruct i as [| i].
    + cbn [Nat.mul Nat.add nth]. apply app_nth1. lia.
    + cbn [nth]. rewrite app_nth2 by lia.
      replace (S i * k + j - length x)%nat with (i * k + j)%nat by lia. apply IH.
Qed.

Lemma nth_take_drop {A} (l : list A) (start n i : nat) (d : A) :
  (i < n)%nat -> nth i (take n (drop start l)) d = nth (start + i) l d.
Proof.
  intros Hi. rewrite nth_firstn.
  replace (i <? n)%nat with true by (symmetry; apply Nat.ltb_lt; lia).
  apply nth_skipn.
Qed.

Section PatchContent.
Variables (h w c p : nat) (img : image).
Hypothesis Hshape : has_shape h w c img.

(** Value [ch] of pixel (i, j) of the patch at grid position (r, col). *)
Lemma patch_at_nth (r col i j ch : nat) :
  (r * p + p <= h)%nat -> (col * p + p <= w)%nat ->
  (i < p)%nat -> (j < p)%nat -> (ch < c)%nat ->
  nth ((i * p + j) * c + ch) (patch_at img p r col) 0%R
  = nth ch (nth (col * p + j) (nth (r * p + i) img []) []) 0%R.
Proof.
  intros Hr Hcol Hi Hj Hch. destruct Hshape as [Hlen Hrows]. unfold patch_at.
  assert (Hrow : forall row, In row img ->
            length row = w /\ Forall (fun px : list R => length px = c) row).
  { intros row Hin. rewrite Forall_forall in Hrows.
    apply Hrows. now apply list_elem_of_In. }
  replace ((i * p + j) * c + ch)%nat with (i * (p * c) + (j * c + ch))%nat by lia.
  rewrite (nth_concat_uniform (p * c)).
  - rewrite (nth_map_in _ _ i []) by (rewrite length_take, length_drop; lia).
    rewrite nth_take_drop by exact Hi.
    assert (Hin : In (nth (r * p + i) img []) img) by (apply nth_In; lia).
    destruct (Hrow _ Hin) as [Hw Hpx].
    rewrite (nth_concat_uniform c).
    + now rewrite nth_take_drop by exact Hj.
    + now apply Forall_take, Forall_drop.
    + exact Hch.
  - apply Forall_map, Forall_take, Forall_drop.
    eapply Forall_impl; [exact Hrows |]. intros row [Hw Hpx]. cbn beta.
    rewrite (concat_uniform_length c) by now apply Forall_take, Forall_drop.
    rewrite length_take, length_drop. rewrite Nat.min_l; lia.
  - nia.
Qed.

End PatchContent.

(** The vanilla path on an s x s x c image, with patches of side p: the
    patch grid is always built, and the reshape alone decides between a
    result and an error. *)
Lemma vanilla_call_eq (w : tokenizer_weights) (s p c : nat)
    (num_patches projection_dim : Z) (img : image) :
  (0 < p)%nat -> 0 <= projection_dim -> has_shape s s c img ->
  let grid := map (fun r => map (fun col => patch_at img p r col) (seq 0 (s / p)))
                  (seq 0 (s / p)) in
  let total := Z.of_nat (s / p * (s / p) * (p * p * c)) in
  tokenize w (Z.of_nat s) (Z.of_nat p) num_patches projection_dim true img
  = if (num_patches <=? 0) || negb (total mod num_patches =? 0)
    then Raise (ValueError "total size of new array must be unchanged")
    else Ok (map (dense_vector (projection_weights w) (Z.to_nat projection_dim))
               (chunks (Z.to_nat (total / num_patches)) (Z.to_nat num_patches)
                  (concat (concat grid))),
             grid).
Proof.
  intros Hp Hdim Hshape grid total.
  destruct (extract_patches_shape s s c p img Hshape Hp) as (patches & Hext & Hlen & Hrows).
  assert (Hgrid : patches = grid).
  { revert Hext. unfold extract_patches.
    replace (Z.of_nat p <=? 0) with false by (symmetry; apply Z.leb_gt; lia).
    cbn [orb]. intros [= <-]. subst grid.
    rewrite (height_shape s s c img Hshape).
    replace (Z.to_nat ((Z.of_nat s - Z.of_nat p + Z.of_nat p) / Z.of_nat p)) with (s / p)%nat
      by (rewrite Z.sub_add, <- Nat2Z.inj_div, Nat2Z.id; reflexivity).
    destruct (Nat.eq_dec (s / p)%nat O) as [-> | Hpos]; [reflexivity |].
    assert (Hs : (0 < s)%nat).
    { destruct s as [| s']; [| lia]. rewrite Nat.Div0.div_0_l in Hpos. lia. }
    rewrite (width_shape s s c img Hshape Hs).
    replace (Z.to_nat ((Z.of_nat s - Z.of_nat p + Z.of_nat p) / Z.of_nat p)) with (s / p)%nat
      by (rewrite Z.sub_add, <- Nat2Z.inj_div, Nat2Z.id; reflexivity).
    now rewrite Nat2Z.id. }
  pose proof (patch_grid_flat_length _ _ _ patches Hlen Hrows) as Hflat.
  subst patches.
  unfold tokenize. rewrite shiftedpatch_init_eq by exact Hdim. run.
  unfold shiftedpatch_call. rewrite self_vanilla, self_patch_size. run.
  rewrite Hext. run. rewrite self_flatten_patches. run.
  unfold reshape_call. rewrite Hflat. fold total.
  destruct ((num_patches <=? 0) || negb (total mod num_patches =? 0)); run; [reflexivity |].
  rewrite self_projection. run. reflexivity.
Qed.

(** X6: in vanilla mode, on an s x s x c image with patches of side p (s
    need not be a multiple of p: the border that fits no patch is dropped),
    the call returns exactly when [num_patches] is positive and divides the
    number (s/p)^2 * p^2 * c of patch values; it then returns [num_patches]
    tokens of [projection_dim] entries each, and otherwise it raises a value
    error. *)
Theorem vanilla_call_decided (w : tokenizer_weights) (s p c : nat)
    (num_patches projection_dim : Z) (img : image) :
  (0 < p)%nat -> 0 <= projection_dim -> has_shape s s c img ->
  let total := Z.of_nat (s / p * (s / p) * (p * p * c)) in
  (0 < num_patches -> total mod num_patches = 0 ->
   exists tokens patches,
     tokenize w (Z.of_nat s) (Z.of_nat p) num_patches projection_dim true img
     = Ok (tokens, patches) /\
     Z.of_nat (length tokens) = num_patches /\
     Forall (fun t => Z.of_nat (length t) = projection_dim) tokens) /\
  (num_patches <= 0 \/ total mod num_patches <> 0 ->
   tokenize w (Z.of_nat s) (Z.of_nat p) num_patches projection_dim true img
   = Raise (ValueError "total size of new array must be unchanged")).
Proof.
  intros Hp Hdim Hshape total.
  pose proof (vanilla_call_eq w s p c num_patches projection_dim img Hp Hdim Hshape) as Heq.
  cbv zeta in Heq. fold total in Heq. split.
  - intros Hpos Hmod. rewrite Heq.
    replace (num_patches <=? 0) with false by (symmetry; apply Z.leb_gt; lia).
    rewrite Hmod. cbn [Z.eqb negb orb].
    eexists _, _. split; [reflexivity |]. split.
    + rewrite length_map, chunks_length. lia.
    + apply Forall_map, Forall_forall. intros t _. cbn beta.
      rewrite dense_vector_length. lia.
  - intros Hbad. rewrite Heq.
    destruct (Z.leb_spec num_patches 0) as [Hle | Hgt]; [reflexivity |].
    destruct Hbad as [Hle | Hmod]; [lia |].
    apply Z.eqb_neq in Hmod. now rewrite Hmod.
Qed.

Lemma vanilla_call_decided_witness :
  (exists tokens patches,
     tokenize sample_weights 2 1 4 3 true sample_image = Ok (tokens, patches) /\
     Z.of_nat (length tokens) = 4 /\
     Forall (fun t => Z.of_nat (length t) = 3) tokens) /\
  tokenize sample_weights 2 1 3 3 true sample_image
  = Raise (ValueError "total size of new array must be unchanged").
Proof.
  split.
  - apply (proj1 (vanilla_call_decided sample_weights 2 1 1 4 3 sample_image
                    ltac:(lia) ltac:(lia) sample_image_shape)); [lia | reflexivity].
  - apply (proj2 (vanilla_call_decided sample_weights 2 1 1 3 3 sample_image
                    ltac:(lia) ltac:(lia) sample_image_shape)).
    right. vm_compute. intros [=].
Defined.

(** X7: in vanilla mode the returned patch grid tiles the image: value ch of
    pixel (i, j) of the patch at grid position (r, col) is value ch of pixel
    (r * p + i, col * p + j) of the image, and the grid has s / p rows. *)
Theorem vanilla_patches_tile_image (w : tokenizer_weights) (s p c : nat)
    (num_patches projection_dim : Z) (img : image)
    (tokens : matrix) (patches : list (list (list R))) :
  (0 < p)%nat -> has_shape s s c img ->
  tokenize w (Z.of_nat s) (Z.of_nat p) num_patches projection_dim true img
  = Ok (tokens, patches) ->
  length patches = (s / p)%nat /\
  forall r col i j ch,
    (r < s / p)%nat -> (col < s / p)%nat -> (i < p)%nat -> (j < p)%nat -> (ch < c)%nat ->
    nth ((i * p + j) * c + ch) (nth col (nth r patches []) []) 0%R
    = nth ch (nth (col * p + j) (nth (r * p + i) img []) []) 0%R.
Proof.
  intros Hp Hshape Hcall.
  assert (Hdim : 0 <= projection_dim).
  { destruct (Z_lt_le_dec projection_dim 0) as [Hneg | Hok]; [| exact Hok].
    unfold tokenize, shiftedpatch_init in Hcall.
    apply Z.ltb_lt in Hneg. rewrite Hneg in Hcall. discriminate. }
  rewrite (vanilla_call_eq w s p c num_patches projection_dim img Hp Hdim Hshape) in Hcall.
  cbv zeta in Hcall.
  destruct (_ || _) in Hcall; [discriminate |].
  injection Hcall as _ <-. split; [now rewrite length_map, length_seq |].
  intros r col i j ch Hr Hcol Hi Hj Hch.
  rewrite (nth_map_in _ _ r O) by now rewrite length_seq.
  rewrite (nth_map_in _ _ col O) by now rewrite length_seq.
  rewrite !seq_nth by assumption. cbn [Nat.add].
  apply (patch_at_nth s s c p img Hshape); try assumption.
  - pose proof (Nat.Div0.mul_div_le s p). nia.
  - pose proof (Nat.Div0.mul_div_le s p). nia.
Qed.

Lemma vanilla_patches_tile_image_witness :
  exists tokens patches,
    tokenize sample_weights 2 1 4 3 true sample_image = Ok (tokens, patches) /\
    nth 0 (nth 0 (nth 1 patches []) []) 0%R = 3%R.
Proof.
  eexists _, _. split; [reflexivity |].
  refine (proj2 (vanilla_patches_tile_image sample_weights 2 1 1 4 3 sample_image _ _
                   ltac:(lia) sample_image_shape eq_refl) 1%nat O O O O _ _ _ _ _);
    cbn; lia.
Defined.

(** *** Content of a shifted copy *)

Lemma nth_replicate_lt {A} (n i : nat) (x d : A) :
  (i < n)%nat -> nth i (replicate n x) d = x.
Proof.
  revert i. induction n as [| n IH]; intros i Hi; [lia |].
  destruct i as [| i]; [reflexivity |]. cbn. apply IH. lia.
Qed.

Section CropPadContent.
Variables (h w c : nat) (img : image).
Hypothesis Hshape : has_shape h w c img.

(** Pixel (a, b) of the crop is pixel (top + a, left + b) of the image. *)
Lemma crop_to_bounding_box_nth (top left th tw : nat) (crop : image) (a b : nat) :
  crop_to_bounding_box img (Z.of_nat top) (Z.of_nat left) (Z.of_nat th) (Z.of_nat tw)
  = Ok crop ->
  (a < th)%nat -> (b < tw)%nat ->
  nth b (nth a crop []) [] = nth (left + b) (nth (top + a) img []) [].
Proof.
  unfold crop_to_bounding_box. intros Hcrop Ha Hb.
  rewrite (height_shape h w c img Hshape) in Hcrop.
  repeat match type of Hcrop with
         | context [if ?cond then _ else _] => destruct cond eqn:?; [discriminate |]
         end.
  injection Hcrop as <-. rewrite !Nat2Z.id.
  assert (Hh : (top + th <= h)%nat) by lia.
  destruct Hshape as [Hlen _].
  rewrite (nth_map_in _ _ a []) by (rewrite length_take, length_drop; lia).
  now rewrite !nth_take_drop.
Qed.

(** Pixel (i, j) of the padded image is a pixel of the image inside the
    window that starts at (top, left), and a zero pixel outside. *)
Lemma pad_to_bounding_box_nth (top left th tw : nat) (padded : image) (i j : nat) :
  (0 < h)%nat -> (0 < w)%nat ->
  pad_to_bounding_box img (Z.of_nat top) (Z.of_nat left) (Z.of_nat th) (Z.of_nat tw)
  = Ok padded ->
  (i < th)%nat -> (j < tw)%nat ->
  nth j (nth i padded []) []
  = if (top <=? i)%nat && (i <? top + h)%nat && (left <=? j)%nat && (j <? left + w)%nat
    then nth (j - left) (nth (i - top) img []) []
    else replicate c 0%R.
Proof.
  unfold pad_to_bounding_box. intros Hh Hw Hpad Hi Hj.
  rewrite (height_shape h w c img Hshape), (width_shape h w c img Hshape Hh),
    (channels_shape h w c img Hshape Hh Hw) in Hpad.
  repeat match type of Hpad with
         | context [if ?cond then _ else _] => destruct cond eqn:?; [discriminate |]
         end.
  injection Hpad as <-. rewrite !Nat2Z.id.
  destruct Hshape as [Hlen Hrows].
  destruct (Nat.leb_spec top i) as [Htop | Htop]; cbn [andb].
  - rewrite app_nth2 by (rewrite length_replicate; lia). rewrite length_replicate.
    destruct (Nat.ltb_spec i (top + h)) as [Hbot | Hbot]; cbn [andb].
    + rewrite app_nth1 by (rewrite length_map; lia).
      rewrite (nth_map_in _ _ (i - top) []) by lia.
      assert (Hrow : length (nth (i - top) img []) = w).
      { rewrite Forall_forall in Hrows.
        apply (Hrows (nth (i - top) img [])), list_elem_of_In, nth_In. lia. }
      destruct (Nat.leb_spec left j) as [Hl | Hl]; cbn [andb].
      * rewrite app_nth2 by (rewrite length_replicate; lia). rewrite length_replicate.
        destruct (Nat.ltb_spec j (left + w)) as [Hr | Hr].
        -- apply app_nth1. lia.
        -- rewrite app_nth2 by lia. apply nth_replicate_lt. lia.
      * rewrite app_nth1 by (rewrite length_replicate; lia).
        apply nth_replicate_lt. lia.
    + rewrite app_nth2 by (rewrite length_map; lia). rewrite length_map.
      rewrite nth_replicate_lt by lia. apply nth_replicate_lt. lia.
  - rewrite app_nth1 by (rewrite length_replicate; lia).
    rewrite nth_replicate_lt by lia. apply nth_replicate_lt. lia.
Qed.

End CropPadContent.

(** A crop of side [side] at (ct, cl) padded back to side [s] at (pt, pl). *)
Lemma crop_then_pad_content (s c : nat) (img : image) (ct cl pt pl side : nat) :
  has_shape s s c img -> (0 < side)%nat ->
  (ct + side <= s)%nat -> (cl + side <= s)%nat ->
  (pt + side <= s)%nat -> (pl + side <= s)%nat ->
  exists shifted,
    (crop ← crop_to_bounding_box img (Z.of_nat ct) (Z.of_nat cl)
              (Z.of_nat side) (Z.of_nat side);
     pad_to_bounding_box crop (Z.of_nat pt) (Z.of_nat pl) (Z.of_nat s) (Z.of_nat s))
    = Ok shifted /\
    has_shape s s c shifted /\
    forall i j, (i < s)%nat -> (j < s)%nat ->
      nth j (nth i shifted []) []
      = if (pt <=? i)%nat && (i <? pt + side)%nat && (pl <=? j)%nat && (j <? pl + side)%nat
        then nth (cl + (j - pl)) (nth (ct + (i - pt)) img []) []
        else replicate c 0%R.
Proof.
  intros Hshape Hside Hct Hcl Hpt Hpl.
  destruct (crop_to_bounding_box_shape s s c img Hshape
              (Z.of_nat ct) (Z.of_nat cl) (Z.of_nat side) (Z.of_nat side))
    as (crop & Hcrop & Scrop); try lia.
  rewrite !Nat2Z.id in Scrop.
  destruct (pad_to_bounding_box_shape side side c crop Scrop
              (Z.of_nat pt) (Z.of_nat pl) (Z.of_nat s) (Z.of_nat s))
    as (shifted & Hpad & Sshifted); try lia.
  rewrite !Nat2Z.id in Sshifted.
  exists shifted. rewrite Hcrop. run. split; [exact Hpad |]. split; [exact Sshifted |].
  intros i j Hi Hj.
  rewrite (pad_to_bounding_box_nth side side c crop Scrop pt pl s s shifted i j)
    by (assumption || lia).
  destruct ((pt <=? i)%nat && (i <? pt + side)%nat && (pl <=? j)%nat && (j <? pl + side)%nat)
    eqn:Hwin; [| reflexivity].
  apply andb_prop in Hwin as [Hwin Hj2]. apply andb_prop in Hwin as [Hwin Hj1].
  apply andb_prop in Hwin as [Hi1 Hi2].
  apply Nat.leb_le in Hi1, Hj1. apply Nat.ltb_lt in Hi2, Hj2.
  apply (crop_to_bounding_box_nth s s c img Hshape ct cl side side crop); [exact Hcrop | lia ..].
Qed.

(** X8: on a tokenizer completed with [half_patch], every shifted copy has
    the size of the image, holds the image content moved from the crop
    offsets of its direction to the pad offsets, and is zero outside the
    moved window. *)
Theorem shifted_copy_content
    (image_size patch_size num_patches projection_dim : Z) (vanilla : bool)
    (self : object) (c : nat) (img : image) (mode : string) :
  shiftedpatch_init image_size patch_size num_patches projection_dim vanilla = Ok self ->
  0 <= patch_size / 2 < image_size ->
  has_shape (Z.to_nat image_size) (Z.to_nat image_size) c img ->
  exists shifted,
    crop_shift_pad (with_half_patch self) img mode = Ok shifted /\
    has_shape (Z.to_nat image_size) (Z.to_nat image_size) c shifted /\
    let '(crop_top, crop_left, pad_top, pad_left) := shift_offsets mode (patch_size / 2) in
    let side := Z.to_nat (image_size - patch_size / 2) in
    forall i j, (i < Z.to_nat image_size)%nat -> (j < Z.to_nat image_size)%nat ->
      nth j (nth i shifted []) []
      = if (Z.to_nat pad_top <=? i)%nat && (i <? Z.to_nat pad_top + side)%nat
           && (Z.to_nat pad_left <=? j)%nat && (j <? Z.to_nat pad_left + side)%nat
        then nth (Z.to_nat crop_left + (j - Z.to_nat pad_left))
               (nth (Z.to_nat crop_top + (i - Z.to_nat pad_top)) img []) []
        else replicate c 0%R.
Proof.
  intros Hinit Hhalf Hshape.
  rewrite (crop_shift_pad_table _ _ _ _ _ self img mode Hinit).
  unfold shift_by_table.
  set (half := patch_size / 2) in *.
  assert (Hgen : forall ct cl pt pl : Z,
            0 <= ct <= half -> 0 <= cl <= half -> 0 <= pt <= half -> 0 <= pl <= half ->
            exists shifted,
              (crop ← crop_to_bounding_box img ct cl (image_size - half) (image_size - half);
               pad_to_bounding_box crop pt pl image_size image_size) = Ok shifted /\
              has_shape (Z.to_nat image_size) (Z.to_nat image_size) c shifted /\
              forall i j, (i < Z.to_nat image_size)%nat -> (j < Z.to_nat image_size)%nat ->
                nth j (nth i shifted []) []
                = if (Z.to_nat pt <=? i)%nat
                     && (i <? Z.to_nat pt + Z.to_nat (image_size - half))%nat
                     && (Z.to_nat pl <=? j)%nat
                     && (j <? Z.to_nat pl + Z.to_nat (image_size - half))%nat
                  then nth (Z.to_nat cl + (j - Z.to_nat pl))
                         (nth (Z.to_nat ct + (i - Z.to_nat pt)) img []) []
                  else replicate c 0%R).
  { intros ct cl pt pl Hct Hcl Hpt Hpl.
    destruct (crop_then_pad_content (Z.to_nat image_size) c img
                (Z.to_nat ct) (Z.to_nat cl) (Z.to_nat pt) (Z.to_nat pl)
                (Z.to_nat (image_size - half)) Hshape) as (shifted & Heq & Hrest); try lia.
    exists shifted. rewrite !Z2Nat.id in Heq by lia. split; [exact Heq | exact Hrest]. }
  unfold shift_offsets.
  destruct (String.eqb mode "left-up");
    [| destruct (String.eqb mode "left-down");
       [| destruct (String.eqb mode "right-up")]];
    apply Hgen; lia.
Qed.

Lemma shifted_copy_content_witness :
  exists self shifted,
    shiftedpatch_init 2 2 1 3 false = Ok self /\
    crop_shift_pad (with_half_patch self) sample_image "left-up" = Ok shifted /\
    nth 0 (nth 0 shifted []) [] = [4%R] /\
    nth 1 (nth 1 shifted []) [] = [0%R].
Proof.
  eexists.
  destruct (shifted_copy_content 2 2 1 3 false _ 1 sample_image "left-up" eq_refl)
    as (shifted & Hcall & _ & Hcontent);
    [change (0 <= 1 < 2); lia | apply sample_image_shape |].
  exists shifted. split; [reflexivity |]. split; [exact Hcall |].
  cbn in Hcontent. split; [apply (Hcontent O O); lia | apply (Hcontent 1%nat 1%nat); lia].
Defined.

(** *** Positional encoder *)

Lemma mapM_ok {A B} (f : A -> result B) (g : A -> B) (l : list A) :
  Forall (fun x => f x = Ok (g x)) l -> mapM f l = Ok (map g l).
Proof.
  induction 1 as [| x l Hx _ IH]; [reflexivity |].
  cbn [mapM map]. rewrite Hx. run. rewrite IH. reflexivity.
Qed.

Lemma map_zip_uncurry {A B C} (f : A -> B -> C) (a : list A) (b : list B) :
  map (fun ab => f ab.1 ab.2) (zip a b) = zip_with f a b.
Proof.
  revert b. induction a as [| x a IH]; intros [| y b]; cbn; try reflexivity.
  now rewrite <- IH.
Qed.

(** Broadcasting two lists of one length is the pointwise operation. *)
Lemma broadcast2_same_length {A} (f : A -> A -> result A) (g : A -> A -> A) (a b : list A) :
  length a = length b ->
  Forall (fun ab => f ab.1 ab.2 = Ok (g ab.1 ab.2)) (zip a b) ->
  broadcast2 f a b = Ok (zip_with g a b).
Proof.
  intros Hlen Hf. unfold broadcast2. rewrite bool_decide_eq_true_2 by exact Hlen.
  rewrite (mapM_ok _ (fun ab => g ab.1 ab.2)) by exact Hf.
  now rewrite map_zip_uncurry.
Qed.

Lemma broadcast_add_rows (u v : list R) :
  length u = length v ->
  broadcast2 (fun x y => Ok (x + y)%R) u v = Ok (zip_with Rplus u v).
Proof.
  intros Hlen. apply broadcast2_same_length; [exact Hlen |].
  apply Forall_forall. now intros [x y] _.
Qed.

Lemma map_length_zip_with_rows {A} (f : A -> A -> A) (a b : list (list A)) :
  map length a = map length b ->
  map length (zip_with (zip_with f) a b) = map length a.
Proof.
  revert b. induction a as [| x a IH]; intros [| y b] Hlen; cbn in *; try congruence.
  injection Hlen as Hxy Hrest. f_equal; [| now apply IH].
  now apply length_zip_with_same.
Qed.

Lemma map_length_uniform {A} (d : nat) (a : list (list A)) :
  Forall (fun x => length x = d) a -> map length a = replicate (length a) d.
Proof. induction 1 as [| x a Hx _ IH]; cbn; [reflexivity | now rewrite Hx, IH]. Qed.

(** The position table as the embedding layer returns it. *)
Lemma embedding_positions (table : nat -> nat -> R) (n d : nat) :
  embedding_call (Z.of_nat n, Z.of_nat d) table (tf_range (Z.of_nat n))
  = Ok (map (fun i => map (table i) (seq 0 d)) (seq 0 n)).
Proof.
  unfold embedding_call, tf_range. rewrite !Nat2Z.id.
  rewrite (mapM_ok _ (fun i => map (table (Z.to_nat i)) (seq 0 d))).
  - f_equal. rewrite map_map. apply map_ext. intros i. now rewrite Nat2Z.id.
  - apply Forall_map, Forall_forall. intros i Hi. apply elem_of_seq in Hi. cbn beta.
    replace (Z.of_nat i <? 0) with false by (symmetry; apply Z.ltb_ge; lia).
    now replace (Z.of_nat n <=? Z.of_nat i) with false by (symmetry; apply Z.leb_gt; lia).
Qed.

Lemma patch_encoder_init_eq (n d : nat) :
  (0 < n)%nat -> (0 < d)%nat ->
  patch_encoder_init (Z.of_nat n) (Z.of_nat d)
  = Ok {| encoder_num_patches := Z.of_nat n;
          position_embedding := (Z.of_nat n, Z.of_nat d);
          positions := tf_range (Z.of_nat n) |}.
Proof.
  intros Hn Hd. unfold patch_encoder_init.
  replace (Z.of_nat n <=? 0) with false by (symmetry; apply Z.leb_gt; lia).
  now replace (Z.of_nat d <=? 0) with false by (symmetry; apply Z.leb_gt; lia).
Qed.

(** X9: called on as many tokens as it has positions, each of the embedding
    width, the positional encoder returns a sequence of the same shape in
    which entry j of token i is the token's entry plus entry (i, j) of the
    position table. *)
Theorem patch_encoder_adds_positions (table : nat -> nat -> R) (n d : nat)
    (tokens : matrix) :
  (0 < n)%nat -> (0 < d)%nat ->
  length tokens = n -> Forall (fun t => length t = d) tokens ->
  exists self out,
    patch_encoder_init (Z.of_nat n) (Z.of_nat d) = Ok self /\
    patch_encoder_call table self tokens = Ok out /\
    map length out = map length tokens /\
    forall i j, (i < n)%nat -> (j < d)%nat ->
      nth j (nth i out []) 0%R = (nth j (nth i tokens []) 0 + table i j)%R.
Proof.
  intros Hn Hd Hlen Hwidth.
  set (rows := map (fun i => map (table i) (seq 0 d)) (seq 0 n)).
  assert (Hrows : Forall (fun r => length r = d) rows).
  { apply Forall_map, Forall_forall. intros i _. cbn beta. now rewrite length_map, length_seq. }
  eexists _, (zip_with (zip_with Rplus) tokens rows).
  split; [now apply patch_encoder_init_eq |]. split; [| split].
  - unfold patch_encoder_call. cbn [position_embedding positions].
    rewrite embedding_positions. run. fold rows. unfold broadcast_add.
    apply broadcast2_same_length.
    + subst rows. now rewrite length_map, length_seq.
    + apply Forall_forall. intros [t r] Hin. cbn [fst snd].
      apply list_elem_of_In in Hin.
      pose proof (in_combine_l _ _ _ _ Hin) as Ht.
      pose proof (in_combine_r _ _ _ _ Hin) as Hr.
      rewrite Forall_forall in Hwidth, Hrows.
      apply broadcast_add_rows.
      rewrite (Hwidth t), (Hrows r); [reflexivity | |]; now apply list_elem_of_In.
  - apply map_length_zip_with_rows.
    rewrite (map_length_uniform d tokens Hwidth), (map_length_uniform d rows Hrows).
    subst rows. now rewrite length_map, length_seq, Hlen.
  - intros i j Hi Hj.
    rewrite (nth_zip_with_in _ _ _ i [] []) by (subst rows; rewrite ?length_map, ?length_seq; lia).
    assert (Hti : length (nth i tokens []) = d).
    { rewrite Forall_forall in Hwidth. apply Hwidth, list_elem_of_In, nth_In. lia. }
    subst rows. rewrite (nth_map_in _ _ i O) by (rewrite length_seq; lia).
    rewrite seq_nth by lia. cbn [Nat.add].
    rewrite (nth_zip_with_in _ _ _ j 0%R 0%R) by (rewrite ?length_map, ?length_seq; lia).
    rewrite (nth_map_in _ _ j O) by (rewrite length_seq; lia).
    now rewrite seq_nth by lia.
Qed.

Lemma patch_encoder_adds_positions_witness :
  exists self out,
    patch_encoder_init 2 2 = Ok self /\
    patch_encoder_call (fun i j => INR (i + j)) self [[1; 2]; [3; 4]]%R = Ok out /\
    nth 1 (nth 1 out []) 0%R = (4 + INR 2)%R.
Proof.
  destruct (patch_encoder_adds_positions (fun i j => INR (i + j)) 2 2 [[1; 2]; [3; 4]]%R)
    as (self & out & Hinit & Hcall & _ & Hentry);
    [lia | lia | reflexivity | repeat constructor |].
  exists self, out. split; [exact Hinit |]. split; [exact Hcall |].
  apply (Hentry 1%nat 1%nat); lia.
Defined.

(** X10: a sequence whose length is neither the number of positions nor 1
    is rejected by the addition (when the encoder has more than one
    position). *)
Theorem patch_encoder_rejects_length (table : nat -> nat -> R) (n d : nat)
    (tokens : matrix) :
  (1 < n)%nat -> (0 < d)%nat ->
  length tokens <> n -> length tokens <> 1%nat ->
  exists self,
    patch_encoder_init (Z.of_nat n) (Z.of_nat d) = Ok self /\
    patch_encoder_call table self tokens
    = Raise (InvalidArgumentError "Incompatible shapes").
Proof.
  intros Hn Hd Hne Hone.
  eexists. split; [apply patch_encoder_init_eq; lia |].
  unfold patch_encoder_call. cbn [position_embedding positions].
  rewrite embedding_positions. run. unfold broadcast_add, broadcast2 at 1.
  rewrite bool_decide_eq_false_2 by now rewrite length_map, length_seq.
  destruct n as [| [| n]]; try lia. cbn [seq map].
  destruct tokens as [| t [| t' tokens]]; cbn in Hone; try reflexivity. lia.
Qed.

Lemma patch_encoder_rejects_length_witness :
  exists self,
    patch_encoder_init 3 2 = Ok self /\
    patch_encoder_call (fun _ _ => 0%R) self [[1; 2]; [3; 4]]%R
    = Raise (InvalidArgumentError "Incompatible shapes").
Proof.
  apply (patch_encoder_rejects_length (fun _ _ => 0%R) 3 2 [[1; 2]; [3; 4]]%R);
    cbn; lia.
Defined.

(** X11: a single token of the embedding width is not rejected: it is
    broadcast, and the encoder returns one token per position, the given
    token plus that position's table row. *)
Theorem patch_encoder_broadcasts_single_token (table : nat -> nat -> R) (n d : nat)
    (token : list R) :
  (1 < n)%nat -> (0 < d)%nat -> length token = d ->
  exists self out,
    patch_encoder_init (Z.of_nat n) (Z.of_nat d) = Ok self /\
    patch_encoder_call table self [token] = Ok out /\
    length out = n /\
    forall i j, (i < n)%nat -> (j < d)%nat ->
      nth j (nth i out []) 0%R = (nth j token 0 + table i j)%R.
Proof.
  intros Hn Hd Hlen.
  set (rows := map (fun i => map (table i) (seq 0 d)) (seq 0 n)).
  eexists _, (map (zip_with Rplus token) rows).
  split; [apply patch_encoder_init_eq; lia |]. split; [| split].
  - unfold patch_encoder_call. cbn [position_embedding positions].
    rewrite embedding_positions. run. fold rows. unfold broadcast_add, broadcast2 at 1.
    rewrite bool_decide_eq_false_2
      by (subst rows; rewrite length_map, length_seq; cbn; lia).
    apply mapM_ok. subst rows. apply Forall_map, Forall_forall. intros i _. cbn beta.
    apply broadcast_add_rows. now rewrite length_map, length_seq.
  - subst rows. now rewrite !length_map, length_seq.
  - intros i j Hi Hj. subst rows. rewrite map_map.
    rewrite (nth_map_in _ _ i O) by (rewrite length_seq; lia).
    rewrite seq_nth by lia. cbn [Nat.add].
    rewrite (nth_zip_with_in _ _ _ j 0%R 0%R) by (rewrite ?length_map, ?length_seq; lia).
    rewrite (nth_map_in _ _ j O) by (rewrite length_seq; lia).
    now rewrite seq_nth by lia.
Qed.

Lemma patch_encoder_broadcasts_single_token_witness :
  exists self out,
    patch_encoder_init 3 2 = Ok self /\
    patch_encoder_call (fun _ _ => 0%R) self [[1; 2]]%R = Ok out /\
    length out = 3%nat.
Proof.
  destruct (patch_encoder_broadcasts_single_token (fun _ _ => 0%R) 3 2 [1; 2]%R)
    as (self & out & Hinit & Hcall & Hlen & _); [lia | lia | reflexivity |].
  now exists self, out.
Defined.

(** *** Feed-forward block *)

Section MlpFacts.
Variable gelu : R -> R.
Variable dropout : R -> matrix -> matrix.

(** X12: [mlp] over two lists of layer widths in a row is [mlp] over the
    first list followed by [mlp] over the second, with the weights of the
    second counted from where the first stopped. *)
Theorem mlp_app (weights : nat -> dense_weights) (x : matrix)
    (hidden_units hidden_units' : list Z) (dropout_rate : R) :
  mlp gelu dropout weights x (hidden_units ++ hidden_units') dropout_rate
  = (y ← mlp gelu dropout weights x hidden_units dropout_rate;
     mlp gelu dropout (fun i => weights (length hidden_units + i)%nat) y
       hidden_units' dropout_rate).
Proof.
  revert weights x. induction hidden_units as [| units rest IH]; intros weights x.
  - reflexivity.
  - cbn [app mlp length]. destruct (units <? 0); [reflexivity |]. apply IH.
Qed.

(** X13: a negative layer width anywhere in the list makes [mlp] raise a
    value error, whatever the input and the weights. *)
Theorem mlp_negative_units (weights : nat -> dense_weights) (x : matrix)
    (hidden_units : list Z) (dropout_rate : R) :
  Exists (fun units => units < 0) hidden_units ->
  mlp gelu dropout weights x hidden_units dropout_rate
  = Raise (ValueError "Received an invalid value for `units`").
Proof.
  intros Hneg. revert weights x.
  induction hidden_units as [| units rest IH]; intros weights x.
  - inversion Hneg.
  - cbn [mlp]. destruct (Z.ltb_spec units 0) as [Hlt | Hge]; [reflexivity |].
    apply IH. apply Exists_cons in Hneg as [Hhere | Hthere]; [lia | exact Hthere].
Qed.

Hypothesis dropout_shape : forall rate m, map length (dropout rate m) = map length m.

Lemma dropout_length (rate : R) (m : matrix) : length (dropout rate m) = length m.
Proof.
  rewrite <- (length_map length (dropout rate m)), dropout_shape. apply length_map.
Qed.

(** With a dropout that keeps shapes, [mlp] over non-negative widths
    returns, keeps the number of rows, and gives every row the last
    width. *)
Lemma mlp_shape (weights : nat -> dense_weights) (x : matrix)
    (hidden_units : list Z) (dropout_rate : R) :
  Forall (fun units => 0 <= units) hidden_units ->
  exists out,
    mlp gelu dropout weights x hidden_units dropout_rate = Ok out /\
    length out = length x /\
    (hidden_units <> [] ->
     Forall (fun row => Z.of_nat (length row) = List.last hidden_units 0) out).
Proof.
  intros Hpos. revert weights x.
  induction Hpos as [| units rest Hunits _ IH]; intros weights x.
  - exists x. split; [reflexivity |]. split; [reflexivity | congruence].
  - cbn [mlp]. replace (units <? 0) with false by (symmetry; apply Z.ltb_ge; lia).
    set (y := dropout dropout_rate _).
    destruct (IH (fun i => weights (S i)) y) as (out & Hout & Hlen & Hlast).
    exists out. split; [exact Hout |]. split.
    + rewrite Hlen. subst y. now rewrite dropout_length, !length_map.
    + intros _. destruct rest as [| units' rest'].
      * cbn in Hout. injection Hout as <-. cbn [List.last].
        assert (Hy : map length y = map (fun _ => Z.to_nat units) x).
        { subst y. rewrite dropout_shape, !map_map. apply map_ext. intros row.
          now rewrite length_map, dense_vector_length. }
        apply Forall_forall. intros row Hin.
        assert (Hrow : In (length row) (map length y)).
        { apply in_map. now apply list_elem_of_In. }
        rewrite Hy in Hrow. apply in_map_iff in Hrow as (_ & <- & _). lia.
      * apply Hlast. congruence.
Qed.

End MlpFacts.



Lemma mlp_negative_units_witness :
  mlp (fun y => y) (fun _ m => m) (fun _ => zero_dense) [[1; 2]]%R [4; -1; 2] 0.1
  = Raise (ValueError "Received an invalid value for `units`").
Proof.
  apply (mlp_negative_units (fun y => y) (fun _ m => m)).
  apply Exists_cons_tl, Exists_cons_hd. lia.
Defined.

(** *** Encoder block and stack *)

Section EncoderShape.
Variable gelu : R -> R.
Variable dropout : R -> matrix -> matrix.
Variable dropout_layer : list matrix -> list matrix.

Lemma add_call_inv (a b out : matrix) :
  add_call a b = Ok out ->
  map length a = map length b /\ out = zip_with (zip_with Rplus) a b.
Proof.
  unfold add_call. case_bool_decide as Hshape; [| discriminate].
  intros [= <-]. now split.
Qed.

Lemma layer_norm_vector_length (epsilon : R) (w : norm_weights) (x : list R) :
  length (layer_norm_vector epsilon w x) = length x.
Proof. unfold layer_norm_vector. apply length_imap. Qed.

(** What a block that returns has computed. *)
Lemma encoder_block_inv (hp : hyperparameters) (vanilla : bool) (w : block_weights)
    (encoded_patches out : matrix) :
  encoder_block gelu dropout dropout_layer hp vanilla w encoded_patches = Ok out ->
  exists attention_output x2,
    map length attention_output = map length encoded_patches /\
    x2 = zip_with (zip_with Rplus) attention_output encoded_patches /\
    out = zip_with (zip_with Rplus) (map (layer_norm_vector 1e-6 (norm2 w)) x2) x2.
Proof.
  unfold encoder_block. cbn [layer_norm_call]. run.
  destruct (if negb vanilla then _ else _) as [attention_output | e]; run; [| discriminate].
  destruct (add_call attention_output encoded_patches) as [x2 | e] eqn:Hadd; run;
    [| discriminate].
  destruct (mlp _ _ _ _ _ _) as [ff | e]; run; [| discriminate].
  destruct (subtract _ _) as [diff | e]; run; [| discriminate].
  intros Hout. apply add_call_inv in Hadd as [Hshape ->].
  apply add_call_inv in Hout as [_ ->].
  exists attention_output, (zip_with (zip_with Rplus) attention_output encoded_patches).
  now repeat split.
Qed.

Lemma encoder_block_shape (hp : hyperparameters) (vanilla : bool) (w : block_weights)
    (encoded_patches out : matrix) :
  encoder_block gelu dropout dropout_layer hp vanilla w encoded_patches = Ok out ->
  map length out = map length encoded_patches.
Proof.
  intros Hblock.
  apply encoder_block_inv in Hblock as (attention_output & x2 & Hshape & Hx2 & ->).
  assert (Hx2shape : map length x2 = map length encoded_patches).
  { subst x2. rewrite map_length_zip_with_rows; assumption. }
  rewrite map_length_zip_with_rows; [| rewrite map_map; apply map_ext; intros row;
                                        apply layer_norm_vector_length].
  rewrite map_map. rewrite <- Hx2shape. apply map_ext. intros row.
  apply layer_norm_vector_length.
Qed.

End EncoderShape.

(** A result of a stack of encoder blocks has the shape of the input. *)
Lemma encoder_stack_shape (gelu : R -> R) (dropout : R -> matrix -> matrix)
    (dropout_layer : list matrix -> list matrix)
    (hp : hyperparameters) (vanilla : bool) (layers : list block_weights)
    (encoded_patches out : matrix) :
  encoder_stack gelu dropout dropout_layer hp vanilla layers encoded_patches = Ok out ->
  map length out = map length encoded_patches.
Proof.
  revert encoded_patches. induction layers as [| w rest IH]; intros encoded_patches.
  - cbn. now intros [= <-].
  - cbn [encoder_stack].
    destruct (encoder_block _ _ _ _ _ _ _) as [next | e] eqn:Hblock; run; [| discriminate].
    intros Hrest. rewrite (IH _ Hrest).
    now apply (encoder_block_shape gelu dropout dropout_layer hp vanilla w).
Qed.

(** X16: the output of an encoder block does not depend on its feed-forward
    branch: two blocks that differ only in feed-forward weights, activation
    and dropout return the same sequence whenever both return. *)
Theorem encoder_block_ignores_feed_forward
    (gelu gelu' : R -> R) (dropout dropout' : R -> matrix -> matrix)
    (dropout_layer : list matrix -> list matrix)
    (hp : hyperparameters) (vanilla : bool) (w : block_weights)
    (feed_forward' : nat -> dense_weights) (encoded_patches out out' : matrix) :
  encoder_block gelu dropout dropout_layer hp vanilla w encoded_patches = Ok out ->
  encoder_block gelu' dropout' dropout_layer hp vanilla
    {| norm1 := norm1 w; attention := attention w; norm2 := norm2 w;
       feed_forward := feed_forward' |} encoded_patches = Ok out' ->
  out = out'.
Proof.
  unfold encoder_block. cbn [layer_norm_call norm1 norm2 attention feed_forward]. run.
  destruct (if negb vanilla then _ else _) as [attention_output | e]; run; [| discriminate].
  destruct (add_call attention_output encoded_patches) as [x2 | e]; run; [| discriminate].
  destruct (mlp gelu _ _ _ _ _) as [ff | e]; run; [| discriminate].
  destruct (subtract _ ff) as [diff | e]; run; [| discriminate].
  destruct (mlp gelu' _ _ _ _ _) as [ff' | e]; run; [| discriminate].
  destruct (subtract _ ff') as [diff' | e]; run; [| discriminate].
  congruence.
Qed.

Lemma encoder_block_ignores_feed_forward_witness :
  exists out out',
    encoder_block (fun y => y) (fun _ m => m) (fun scores => scores)
      small_hyperparameters true silent_block [[1; 3]]%R = Ok out /\
    encoder_block (fun y => (y * y)%R) (fun _ m => m) (fun scores => scores)
      small_hyperparameters true
      {| norm1 := fresh_norm; attention := silent_attention; norm2 := fresh_norm;
         feed_forward := fun _ => {| kernel := fun _ _ => 1%R; bias := fun _ => 1%R |} |}
      [[1; 3]]%R = Ok out' /\
    out = out'.
Proof.
  eexists _, _. split; [reflexivity |]. split; [reflexivity |].
  apply (encoder_block_ignores_feed_forward (fun y => y) (fun y => (y * y)%R)
           (fun _ m => m) (fun _ m => m) (fun scores => scores)
           small_hyperparameters true silent_block
           (fun _ => {| kernel := fun _ _ => 1%R; bias := fun _ => 1%R |}) [[1; 3]]%R);
    reflexivity.
Defined.

(** *** Attention weights and outputs *)

(** X17: the attention scores returned by [_compute_attention] are those
    computed before dropout: another dropout layer changes the output, not
    the returned scores. *)
Theorem attention_scores_before_dropout
    (dropout_layer dropout_layer' : list matrix -> list matrix) (self : object)
    (query key value : list matrix) (mask : option (list (list (list Z))))
    (output scores : list matrix) :
  compute_attention dropout_layer self query key value mask = Ok (output, scores) ->
  exists output',
    compute_attention dropout_layer' self query key value mask = Ok (output', scores).
Proof.
  unfold compute_attention.
  destruct (Layer_get_trainable self) as [trainable | e]; run; [| discriminate].
  destruct (truediv 1.0 trainable) as [scale | e]; run; [| discriminate].
  intros [= _ <-]. eexists. reflexivity.
Qed.

Lemma attention_scores_before_dropout_witness :
  exists self,
    multiheadattention_init Keras2 1 4 0.1 = Ok self /\
    exists output scores,
      compute_attention (fun s => s) self [[[1; 0]]]%R [[[1; 0]; [0; 1]]]%R
        [[[5; 6]; [7; 8]]]%R None = Ok (output, scores) /\
      exists output',
        compute_attention (fun s => []) self [[[1; 0]]]%R [[[1; 0]; [0; 1]]]%R
          [[[5; 6]; [7; 8]]]%R None = Ok (output', scores).
Proof.
  eexists. split; [reflexivity |]. eexists _, _. split; [reflexivity |].
  refine (attention_scores_before_dropout (fun s => s) (fun s => []) _ _ _ _ _ _ _ _).
  reflexivity.
Defined.

Section AttentionRows.
Variable dropout_layer : list matrix -> list matrix.
Variables (self : object) (query key value : list matrix) (output scores : list matrix).
Hypothesis Hcall :
  compute_attention dropout_layer self query key value None = Ok (output, scores).
Variables (h t : nat).
Hypothesis Hq : (h < length query)%nat.
Hypothesis Hk : (h < length key)%nat.
Hypothesis Ht : (t < length (nth h query []))%nat.

(** Row [t] of head [h] of the returned scores is a softmax over the keys. *)
Lemma attention_row_eq :
  exists raw : list R,
    length raw = length (nth h key []) /\
    nth t (nth h scores []) [] = softmax raw.
Proof.
  revert Hcall. unfold compute_attention.
  destruct (Layer_get_trainable self) as [trainable | e]; run; [| discriminate].
  destruct (truediv 1.0 trainable) as [scale | e]; run; [| discriminate].
  intros [= _ <-]. unfold masked_softmax, dot_product_equation.
  assert (Hscaled : length (scale_queries scale query) = length query)
    by (unfold scale_queries; apply length_map).
  assert (Hrow : length (nth h (scale_queries scale query) [])
                 = length (nth h query [])).
  { unfold scale_queries. rewrite (nth_map_in _ _ h []) by exact Hq. apply length_map. }
  eexists. split; [| rewrite (nth_map_in _ _ h []);
                     [rewrite (nth_zip_with_in _ _ _ h [] []) by lia;
                      rewrite (nth_map_in _ _ t []) by (rewrite length_map; lia);
                      rewrite (nth_map_in _ _ t []) by lia; reflexivity |]].
  - apply length_map.
  - assert (Hzip : forall (a b : list matrix) F,
              length (zip_with F a b : list matrix) = Nat.min (length a) (length b)).
    { intros a. induction a as [| x a IH]; intros [| y b] F; cbn; try reflexivity.
      now rewrite IH. }
    rewrite Hzip. lia.
Qed.

Lemma attention_row_sum :
  nth h key [] <> [] -> sum_R (nth t (nth h scores []) []) = 1%R.
Proof.
  intros Hne. destruct attention_row_eq as (raw & Hlen & ->).
  apply softmax_sum. intros ->. destruct (nth h key []); [congruence | discriminate].
Qed.

End AttentionRows.

(** Any layer object whose [trainable] can divide returns from the
    attention computation. *)
Lemma compute_attention_returns (dropout_layer : list matrix -> list matrix)
    (self : object) (trainable : value) (scale : R) (query key value : list matrix)
    (mask : option (list (list (list Z)))) :
  Layer_get_trainable self = Ok trainable ->
  truediv 1.0 trainable = Ok scale ->
  exists output scores,
    compute_attention dropout_layer self query key value mask = Ok (output, scores).
Proof.
  intros Htrainable Hscale. unfold compute_attention. rewrite Htrainable. run.
  rewrite Hscale. run. eexists _, _. reflexivity.
Qed.

Lemma sqrt_4_nonzero : sqrt (IZR 4) <> 0%R.
Proof. apply Rgt_not_eq, sqrt_lt_R0. lra. Qed.

(** X18: without a mask, on every layer object whose [trainable] reads as a
    number that is not zero, the attention computation returns, and every
    row of the returned attention scores of a head with at least one key
    position sums to 1. *)
Theorem attention_scores_row_stochastic
    (dropout_layer : list matrix -> list matrix) (self : object)
    (trainable : value) (scale : R)
    (query key value : list matrix) (h t : nat) :
  Layer_get_trainable self = Ok trainable -> truth trainable = true ->
  truediv 1.0 trainable = Ok scale ->
  (h < length query)%nat -> (h < length key)%nat ->
  (t < length (nth h query []))%nat -> nth h key [] <> [] ->
  exists output scores,
    compute_attention dropout_layer self query key value None = Ok (output, scores) /\
    sum_R (nth t (nth h scores []) []) = 1%R.
Proof.
  intros Htrainable _ Hscale Hq Hk Ht Hne.
  destruct (compute_attention_returns dropout_layer self trainable scale query key value None
              Htrainable Hscale) as (output & scores & Hcall).
  exists output, scores. split; [exact Hcall |].
  now apply (attention_row_sum dropout_layer self query key value output scores Hcall h t).
Qed.

Lemma attention_scores_row_stochastic_witness :
  exists self,
    multiheadattention_init Keras2 1 4 0.1 = Ok self /\
    exists output scores,
      compute_attention (fun s => s) self [[[1; 0]]]%R [[[1; 0]; [0; 1]]]%R
        [[[5; 6]; [7; 8]]]%R None = Ok (output, scores) /\
      sum_R (nth 0 (nth 0 scores []) []) = 1%R.
Proof.
  eexists. split; [reflexivity |].
  match goal with
  | |- exists output scores, compute_attention _ ?obj _ _ _ _ = _ /\ _ => set (self := obj)
  end.
  refine (attention_scores_row_stochastic (fun s => s) self
            (VFloat (sqrt (IZR 4))) (1.0 / sqrt (IZR 4))
            [[[1; 0]]]%R [[[1; 0]; [0; 1]]]%R [[[5; 6]; [7; 8]]]%R O O _ _ _ _ _ _ _);
    [reflexivity | apply truth_nonzero, sqrt_4_nonzero | reflexivity
     | cbn; lia | cbn; lia | cbn; lia | discriminate].
Defined.

Lemma dot_replicate (p : list R) (x : R) :
  dot p (replicate (length p) x) = (sum_R p * x)%R.
Proof.
  unfold dot, sum_R. induction p as [| a p IH]; cbn; [lra |]. rewrite IH. lra.
Qed.

Lemma column_replicate (n j : nat) (vec : list R) :
  column j (replicate n vec) = replicate n (nth j vec 0%R).
Proof. unfold column. induction n as [| n IH]; cbn; [reflexivity | now rewrite IH]. Qed.

Lemma map_nth_seq (l : list R) : map (fun j => nth j l 0%R) (seq 0 (length l)) = l.
Proof.
  apply (nth_ext _ _ 0%R 0%R); [now rewrite length_map, length_seq |].
  intros j Hj. rewrite length_map, length_seq in Hj.
  rewrite (nth_map_in _ _ j O) by now rewrite length_seq.
  now rewrite seq_nth.
Qed.

(** X19: at inference (identity dropout) and without a mask, on every layer
    object whose [trainable] reads as a number that is not zero, a head whose
    value vectors are all one vector returns that vector for every query
    position: the output rows are averages of the value rows with weights
    that sum to 1. *)
Theorem attention_of_constant_values (self : object) (trainable : value) (scale : R)
    (query key value : list matrix) (h t : nat) (vec : list R) :
  Layer_get_trainable self = Ok trainable -> truth trainable = true ->
  truediv 1.0 trainable = Ok scale ->
  (h < length query)%nat -> (h < length key)%nat -> (h < length value)%nat ->
  (t < length (nth h query []))%nat -> nth h key [] <> [] ->
  nth h value [] = replicate (length (nth h key [])) vec ->
  exists output scores,
    compute_attention (fun s => s) self query key value None = Ok (output, scores) /\
    nth t (nth h output []) [] = vec.
Proof.
  intros Htrainable _ Hscale Hq Hk Hv Ht Hne Hvalue.
  destruct (compute_attention_returns (fun s => s) self trainable scale query key value None
              Htrainable Hscale) as (output & scores & Hcall).
  exists output, scores. split; [exact Hcall |].
  destruct (attention_row_eq (fun s => s) self query key value output scores Hcall h t
              Hq Hk Ht) as (raw & Hraw & Hrow).
  pose proof (attention_row_sum (fun s => s) self query key value output scores Hcall h t
                Hq Hk Ht Hne) as Hsum.
  assert (Hscores : (h < length scores)%nat /\ (t < length (nth h scores []))%nat).
  { assert (Hnonempty : nth t (nth h scores []) [] <> []).
    { intros Hnil. rewrite Hnil in Hsum. unfold sum_R in Hsum. cbn in Hsum. lra. }
    split.
    - destruct (Nat.lt_ge_cases h (length scores)) as [Hlt | Hge]; [exact Hlt |].
      rewrite (nth_overflow scores) in Hnonempty by exact Hge. now destruct t.
    - destruct (Nat.lt_ge_cases t (length (nth h scores []))) as [Hlt | Hge]; [exact Hlt |].
      now rewrite nth_overflow in Hnonempty by exact Hge. }
  destruct Hscores as [Hh Hth].
  assert (Hout : output = combine_equation scores value).
  { revert Hcall. unfold compute_attention. rewrite Htrainable. run.
    rewrite Hscale. run. now intros [= <- <-]. }
  rewrite Hout. unfold combine_equation.
  rewrite (nth_zip_with_in _ _ _ h [] []) by assumption.
  rewrite (nth_map_in _ _ t []) by exact Hth.
  rewrite Hvalue. set (n := length (nth h key [])).
  assert (Hn : (0 < n)%nat) by (subst n; destruct (nth h key []); [congruence | cbn; lia]).
  replace (hd [] (replicate n vec)) with vec by (destruct n; [lia | reflexivity]).
  rewrite <- (map_nth_seq vec) at 2. apply map_ext. intros j.
  rewrite column_replicate, Hrow.
  assert (Hlen : n = length (softmax raw)) by (rewrite softmax_length; lia).
  rewrite Hlen, dot_replicate. rewrite <- Hrow, Hsum. lra.
Qed.

Lemma attention_of_constant_values_witness :
  exists self,
    multiheadattention_init Keras2 1 4 0.1 = Ok self /\
    exists output scores,
      compute_attention (fun s => s) self [[[1; 0]]]%R [[[1; 0]; [0; 1]]]%R
        [[[5; 6]; [5; 6]]]%R None = Ok (output, scores) /\
      nth 0 (nth 0 output []) [] = [5; 6]%R.
Proof.
  eexists. split; [reflexivity |].
  match goal with
  | |- exists output scores, compute_attention _ ?obj _ _ _ _ = _ /\ _ => set (self := obj)
  end.
  refine (attention_of_constant_values self (VFloat (sqrt (IZR 4))) (1.0 / sqrt (IZR 4))
            [[[1; 0]]]%R [[[1; 0]; [0; 1]]]%R [[[5; 6]; [5; 6]]]%R O O [5; 6]%R
            _ _ _ _ _ _ _ _ _);
    [reflexivity | apply truth_nonzero, sqrt_4_nonzero | reflexivity
     | cbn; lia | cbn; lia | cbn; lia | cbn; lia | discriminate | reflexivity].
Defined.

(** *** Classifier *)

(** X20: in locality mode the classifier computation never gets past the
    tokenizer: whatever the weights and the image, it raises the attribute
    error of the shift operation. *)
Theorem locality_classifier_raises
    (gelu : R -> R) (dropout : R -> matrix -> matrix)
    (dropout_layer : list matrix -> list matrix)
    (cfg : model_config) (w : model_weights) (augumented : image) :
  0 <= projection_dim (config_blocks cfg) ->
  vit_classifier_logits gelu dropout dropout_layer cfg false w augumented
  = Raise (AttributeError "half_patch").
Proof.
  intros Hdim. unfold vit_classifier_logits, tokenize.
  rewrite shiftedpatch_init_eq by exact Hdim. run.
  rewrite (locality_call_stops _ (config_image_size cfg) (config_patch_size cfg)
             (num_patches (config_blocks cfg)) (projection_dim (config_blocks cfg)));
    [reflexivity | now apply shiftedpatch_init_eq].
Qed.

Lemma locality_classifier_raises_witness :
  vit_classifier_logits (fun y => y) (fun _ m => m) (fun scores => scores) source_config false
    {| tokenizer_params := sample_weights;
       position_table := fun _ _ => 0%R;
       block_params := [silent_block];
       final_norm := fresh_norm;
       head_params := fun _ => zero_dense;
       logits_params := zero_dense |}
    (blank_image 72 3)
  = Raise (AttributeError "half_patch").
Proof.
  apply (locality_classifier_raises (fun y => y) (fun _ m => m) (fun scores => scores)
           source_config).
  cbn. lia.
Defined.

(** The head returns one row of [num_classes] values. *)
Lemma classifier_head_shape
    (gelu : R -> R) (dropout : R -> matrix -> matrix)
    (cfg : model_config) (w : model_weights) (encoded_patches : matrix) :
  (forall rate m, map length (dropout rate m) = map length m) ->
  Forall (fun units => 0 <= units) (config_mlp_head_units cfg) ->
  0 <= config_num_classes cfg ->
  exists logits,
    classifier_head gelu dropout cfg w encoded_patches = Ok [logits] /\
    Z.of_nat (length logits) = config_num_classes cfg.
Proof.
  intros Hdrop Hunits Hclasses. unfold classifier_head. cbn [layer_norm_call]. run.
  set (representation := dropout 0.5%R _).
  destruct (mlp_shape gelu dropout Hdrop (head_params w) representation
              (config_mlp_head_units cfg) 0.5%R Hunits) as (features & -> & Hlen & _).
  run. replace (config_num_classes cfg <? 0) with false by (symmetry; apply Z.ltb_ge; lia).
  run. cbn [dense_call].
  assert (Hone : length features = 1%nat).
  { rewrite Hlen. subst representation. now rewrite (dropout_length dropout Hdrop). }
  destruct features as [| f [| f' rest]]; cbn in Hone; try lia.
  eexists. split; [reflexivity |]. rewrite dense_vector_length. lia.
Qed.

(** X21: with a dropout that keeps shapes, non-negative head widths and a
    non-negative class count, the classifier head turns any encoded
    sequence into one row of exactly [num_classes] logits. *)
Theorem classifier_head_logits
    (gelu : R -> R) (dropout : R -> matrix -> matrix)
    (cfg : model_config) (w : model_weights) (encoded_patches : matrix) :
  (forall rate m, map length (dropout rate m) = map length m) ->
  Forall (fun units => 0 <= units) (config_mlp_head_units cfg) ->
  0 <= config_num_classes cfg ->
  exists logits,
    classifier_head gelu dropout cfg w encoded_patches = Ok [logits] /\
    Z.of_nat (length logits) = config_num_classes cfg.
Proof. apply classifier_head_shape. Qed.

Lemma classifier_head_logits_witness :
  exists logits,
    classifier_head (fun y => y) (fun _ m => m) source_config
      {| tokenizer_params := sample_weights;
         position_table := fun _ _ => 0%R;
         block_params := [silent_block];
         final_norm := fresh_norm;
         head_params := fun _ => zero_dense;
         logits_params := zero_dense |}
      [[1; 3]; [2; 5]]%R = Ok [logits] /\
    Z.of_nat (length logits) = 10.
Proof.
  apply (classifier_head_logits (fun y => y) (fun _ m => m) source_config);
    [reflexivity | repeat constructor; lia | cbn; lia].
Defined.

(** *** The vanilla classifier from image to logits *)

Lemma zip_same_shape (a b : matrix) :
  map length a = map length b ->
  length a = length b /\ Forall (fun ab => length ab.1 = length ab.2) (zip a b).
Proof.
  revert b. induction a as [| x a IH]; intros [| y b] Hshape; cbn in *; try congruence.
  - split; [reflexivity | constructor].
  - injection Hshape as Hxy Hrest. destruct (IH b Hrest) as [Hlen Hall].
    split; [now rewrite Hlen | now constructor].
Qed.

(** Subtracting tensors of one shape never raises. *)
Lemma subtract_same_shape (a b : matrix) :
  map length a = map length b -> exists diff, subtract a b = Ok diff.
Proof.
  intros Hshape. destruct (zip_same_shape a b Hshape) as [Hlen Hall].
  exists (zip_with (zip_with Rminus) a b). unfold subtract.
  apply broadcast2_same_length; [exact Hlen |].
  eapply Forall_impl; [exact Hall |]. intros [u v] Huv. cbn [fst snd] in *.
  apply broadcast2_same_length; [exact Huv |].
  apply Forall_forall. now intros [x y] _.
Qed.

Lemma add_call_same_shape (a b : matrix) :
  map length a = map length b -> add_call a b = Ok (zip_with (zip_with Rplus) a b).
Proof. intros Hshape. unfold add_call. now rewrite bool_decide_eq_true_2. Qed.

Lemma patch_encoder_call_shape (table : nat -> nat -> R) (n d : nat) (tokens : matrix) :
  (0 < n)%nat -> (0 < d)%nat ->
  length tokens = n -> Forall (fun t => length t = d) tokens ->
  exists self out,
    patch_encoder_init (Z.of_nat n) (Z.of_nat d) = Ok self /\
    patch_encoder_call table self tokens = Ok out /\
    map length out = map length tokens.
Proof.
  intros Hn Hd Hlen Hwidth.
  set (rows := map (fun i => map (table i) (seq 0 d)) (seq 0 n)).
  assert (Hrows : Forall (fun r => length r = d) rows).
  { apply Forall_map, Forall_forall. intros i _. cbn beta. now rewrite length_map, length_seq. }
  assert (Hshape : map length tokens = map length rows).
  { rewrite (map_length_uniform d tokens Hwidth), (map_length_uniform d rows Hrows).
    subst rows. now rewrite length_map, length_seq, Hlen. }
  destruct (zip_same_shape tokens rows Hshape) as [Hlen' Hall].
  eexists _, (zip_with (zip_with Rplus) tokens rows).
  split; [now apply patch_encoder_init_eq |]. split.
  - unfold patch_encoder_call. cbn [position_embedding positions].
    rewrite embedding_positions. run. fold rows. unfold broadcast_add.
    apply broadcast2_same_length; [exact Hlen' |].
    eapply Forall_impl; [exact Hall |]. intros [u v] Huv. cbn [fst snd] in *.
    now apply broadcast_add_rows.
  - now apply map_length_zip_with_rows.
Qed.

Section VanillaStack.
Variable gelu : R -> R.
Variable dropout : R -> matrix -> matrix.
Variable dropout_layer : list matrix -> list matrix.
Hypothesis dropout_shape : forall rate m, map length (dropout rate m) = map length m.
Variables (hp : hyperparameters) (n d : nat).
Hypothesis Hunits : Forall (fun units => 0 <= units) (transformer_units hp).
Hypothesis Hlast : List.last (transformer_units hp) 0 = Z.of_nat d.
Hypothesis Hd : (0 < d)%nat.

(** A vanilla block whose attention projects back to n tokens of width d
    returns on every sequence of that shape. *)
Lemma vanilla_block_returns (w : block_weights) (encoded_patches : matrix) :
  (forall x, map length (project_output (attention w) x) = replicate n d) ->
  map length encoded_patches = replicate n d ->
  exists out,
    encoder_block gelu dropout dropout_layer hp true w encoded_patches = Ok out /\
    map length out = replicate n d.
Proof.
  intros Hattention Hshape.
  assert (Hreturns : exists out,
            encoder_block gelu dropout dropout_layer hp true w encoded_patches = Ok out).
  { unfold encoder_block. cbn [layer_norm_call negb]. run.
    unfold attention_call, MultiHeadAttention_init. run.
    unfold standard_compute_attention.
    match goal with
    | |- context [getattr_int ?obj "_key_dim"] =>
        change (getattr_int obj "_key_dim") with (Ok (projection_dim hp))
    end.
    run.
    match goal with
    | |- context [project_output (attention w) ?x] => set (attention_output := project_output (attention w) x)
    end.
    assert (Hout : map length attention_output = map length encoded_patches)
      by (subst attention_output; now rewrite Hattention, Hshape).
    rewrite (add_call_same_shape _ _ Hout). run.
    set (x2 := zip_with (zip_with Rplus) attention_output encoded_patches).
    assert (Hx2 : map length x2 = replicate n d).
    { subst x2. now rewrite map_length_zip_with_rows, Hout. }
    set (x3 := map (layer_norm_vector 1e-6 (norm2 w)) x2).
    assert (Hx3 : map length x3 = replicate n d).
    { subst x3. rewrite map_map, <- Hx2. apply map_ext. intros row.
      apply layer_norm_vector_length. }
    destruct (mlp_shape gelu dropout dropout_shape (feed_forward w) x3
                (transformer_units hp) 0.1%R Hunits) as (ff & -> & Hfflen & Hffwidth).
    run.
    assert (Hne : transformer_units hp <> []).
    { intros Hnil. rewrite Hnil in Hlast. cbn in Hlast. lia. }
    specialize (Hffwidth Hne). rewrite Hlast in Hffwidth.
    assert (Hff : map length ff = replicate n d).
    { rewrite (map_length_uniform d ff).
      - rewrite Hfflen, <- (length_map length x3), Hx3. now rewrite length_replicate.
      - eapply Forall_impl; [exact Hffwidth |]. intros row Hrow. cbn beta in Hrow. lia. }
    destruct (subtract_same_shape x3 ff) as (diff & ->); [now rewrite Hx3, Hff |].
    run. rewrite (add_call_same_shape x3 x2) by now rewrite Hx3, Hx2.
    eexists. reflexivity. }
  destruct Hreturns as (out & Hout). exists out. split; [exact Hout |].
  rewrite <- Hshape.
  now apply (encoder_block_shape gelu dropout dropout_layer hp true w).
Qed.

Lemma vanilla_stack_returns (layers : list block_weights) (encoded_patches : matrix) :
  Forall (fun w => forall x, map length (project_output (attention w) x) = replicate n d)
         layers ->
  map length encoded_patches = replicate n d ->
  exists out,
    encoder_stack gelu dropout dropout_layer hp true layers encoded_patches = Ok out /\
    map length out = replicate n d.
Proof.
  intros Hlayers. revert encoded_patches.
  induction Hlayers as [| w rest Hw _ IH]; intros encoded_patches Hshape.
  - exists encoded_patches. now split.
  - cbn [encoder_stack].
    destruct (vanilla_block_returns w encoded_patches Hw Hshape) as (next & -> & Hnext).
    run. now apply IH.
Qed.

End VanillaStack.

(** X15: in vanilla mode, with a dropout that keeps shapes, non-negative
    feed-forward widths ending in the token width d, and attention
    projections that map back to n tokens of width d, a stack of any number
    of encoder blocks returns on every sequence of n tokens of width d, and
    what it returns has the same shape. *)
Theorem encoder_stack_keeps_shape (gelu : R -> R) (dropout : R -> matrix -> matrix)
    (dropout_layer : list matrix -> list matrix)
    (hp : hyperparameters) (n d : nat) (layers : list block_weights)
    (encoded_patches : matrix) :
  (forall rate m, map length (dropout rate m) = map length m) ->
  Forall (fun units => 0 <= units) (transformer_units hp) ->
  List.last (transformer_units hp) 0 = Z.of_nat d ->
  (0 < d)%nat ->
  Forall (fun w => forall x, map length (project_output (attention w) x) = replicate n d)
         layers ->
  map length encoded_patches = replicate n d ->
  exists out,
    encoder_stack gelu dropout dropout_layer hp true layers encoded_patches = Ok out /\
    map length out = map length encoded_patches.
Proof.
  intros Hdrop Hunits Hlast Hd Hlayers Hshape. rewrite Hshape.
  now apply (vanilla_stack_returns gelu dropout dropout_layer Hdrop hp n d Hunits Hlast Hd).
Qed.

Lemma encoder_stack_keeps_shape_witness :
  exists out,
    encoder_stack (fun y => y) (fun _ m => m) (fun scores => scores)
      (config_blocks tiny_config) true [tiny_block; tiny_block]
      [[1; 3]; [0; 2]; [5; 1]; [2; 2]]%R = Ok out /\
    map length out = map length [[1; 3]; [0; 2]; [5; 1]; [2; 2]]%R.
Proof.
  apply (encoder_stack_keeps_shape (fun y => y) (fun _ m => m) (fun scores => scores)
           (config_blocks tiny_config) 4 2 [tiny_block; tiny_block]);
    try reflexivity; try (cbn; lia); repeat constructor; cbn; lia.
Defined.

(** In vanilla mode the layers are laid out without an error, up to
    [num_classes] logits. *)
Lemma vanilla_logits_returned
    (gelu : R -> R) (dropout : R -> matrix -> matrix)
    (dropout_layer : list matrix -> list matrix)
    (cfg : model_config) (w : model_weights) (augumented : image) (s p c d : nat) :
  (forall rate m, map length (dropout rate m) = map length m) ->
  config_image_size cfg = Z.of_nat s -> config_patch_size cfg = Z.of_nat p ->
  (0 < p)%nat -> (0 < s / p)%nat ->
  num_patches (config_blocks cfg) = Z.of_nat (s / p * (s / p)) ->
  projection_dim (config_blocks cfg) = Z.of_nat d -> (0 < d)%nat ->
  has_shape s s c augumented ->
  Forall (fun units => 0 <= units) (transformer_units (config_blocks cfg)) ->
  List.last (transformer_units (config_blocks cfg)) 0 = Z.of_nat d ->
  Forall (fun b => forall x, map length (project_output (attention b) x)
                             = replicate (s / p * (s / p)) d) (block_params w) ->
  Forall (fun units => 0 <= units) (config_mlp_head_units cfg) ->
  0 <= config_num_classes cfg ->
  exists logits,
    vit_classifier_logits gelu dropout dropout_layer cfg true w augumented = Ok [logits] /\
    Z.of_nat (length logits) = config_num_classes cfg.
Proof.
  intros Hdrop Hsize Hpatch Hp Hgrid Hcount Hdim Hd Hshape Hunits Hlast Hblocks Hhead Hclasses.
  unfold vit_classifier_logits. rewrite Hsize, Hpatch, Hcount, Hdim.
  rewrite (vanilla_call_eq _ s p c _ (Z.of_nat d) augumented Hp (Nat2Z.is_nonneg d) Hshape).
  cbv zeta.
  set (n := (s / p * (s / p))%nat) in *.
  assert (Hn : (0 < n)%nat) by (subst n; nia).
  replace (Z.of_nat n <=? 0) with false by (symmetry; apply Z.leb_gt; lia).
  replace (Z.of_nat (n * (p * p * c))) with (Z.of_nat (p * p * c) * Z.of_nat n) by lia.
  rewrite Z.mod_mul by lia. cbn [Z.eqb negb orb]. run.
  set (tokens := map _ (chunks _ _ _)).
  assert (Hlen : length tokens = n).
  { subst tokens. now rewrite length_map, chunks_length, Nat2Z.id. }
  assert (Hwidth : Forall (fun t => length t = d) tokens).
  { subst tokens. apply Forall_map, Forall_forall. intros t _. cbn beta.
    now rewrite dense_vector_length, Nat2Z.id. }
  destruct (patch_encoder_call_shape (position_table w) n d tokens Hn Hd Hlen Hwidth)
    as (encoder & encoded & -> & Hencoded & Hencoded_shape).
  run. rewrite Hencoded. run.
  rewrite (map_length_uniform d tokens Hwidth), Hlen in Hencoded_shape.
  destruct (vanilla_stack_returns gelu dropout dropout_layer Hdrop (config_blocks cfg) n d
              Hunits Hlast Hd (block_params w) encoded Hblocks Hencoded_shape)
    as (out & -> & _).
  run. now apply classifier_head_shape.
Qed.

(** The error with which [keras.Model] refuses the keyword [input]. *)
Lemma keras_Model_input (version : keras_version) (logits : matrix) :
  keras_Model version ["input"; "outputs"] logits
  = Raise (match version with
           | Keras2 => TypeError "Keyword argument not understood: input"
           | Keras3 => ValueError "Unrecognized keyword arguments passed to Model: input"
           end).
Proof. now destruct version. Qed.

(** X22: in vanilla mode, with a configuration whose patch count is
    (image_size / patch_size) squared and whose last feed-forward width is
    the embedding width, with attention projections that map back to that
    many tokens of that width and a dropout that keeps shapes, every layer
    of [vit_classifier] is laid out without an error on an image of the
    configured size, up to exactly [num_classes] logits, and the function
    then stops at its last statement: [keras.Model] refuses the keyword
    [input], and no model is returned. *)
Theorem vanilla_classifier_stops_at_model
    (gelu : R -> R) (dropout : R -> matrix -> matrix)
    (dropout_layer : list matrix -> list matrix)
    (cfg : model_config) (w : model_weights) (augumented : image) (s p c d : nat) :
  (forall rate m, map length (dropout rate m) = map length m) ->
  config_image_size cfg = Z.of_nat s -> config_patch_size cfg = Z.of_nat p ->
  (0 < p)%nat -> (0 < s / p)%nat ->
  num_patches (config_blocks cfg) = Z.of_nat (s / p * (s / p)) ->
  projection_dim (config_blocks cfg) = Z.of_nat d -> (0 < d)%nat ->
  has_shape s s c augumented ->
  Forall (fun units => 0 <= units) (transformer_units (config_blocks cfg)) ->
  List.last (transformer_units (config_blocks cfg)) 0 = Z.of_nat d ->
  Forall (fun b => forall x, map length (project_output (attention b) x)
                             = replicate (s / p * (s / p)) d) (block_params w) ->
  Forall (fun units => 0 <= units) (config_mlp_head_units cfg) ->
  0 <= config_num_classes cfg ->
  (exists logits,
     vit_classifier_logits gelu dropout dropout_layer cfg true w augumented = Ok [logits] /\
     Z.of_nat (length logits) = config_num_classes cfg) /\
  vit_classifier gelu dropout dropout_layer cfg true w augumented
  = Raise (match keras (config_blocks cfg) with
           | Keras2 => TypeError "Keyword argument not understood: input"
           | Keras3 => ValueError "Unrecognized keyword arguments passed to Model: input"
           end).
Proof.
  intros Hdrop Hsize Hpatch Hp Hgrid Hcount Hdim Hd Hshape Hunits Hlast Hblocks Hhead Hclasses.
  destruct (vanilla_logits_returned gelu dropout dropout_layer cfg w augumented s p c d
              Hdrop Hsize Hpatch Hp Hgrid Hcount Hdim Hd Hshape Hunits Hlast Hblocks Hhead
              Hclasses) as (logits & Hlogits & Hlength).
  split; [now exists logits |].
  unfold vit_classifier. rewrite Hlogits. run. apply keras_Model_input.
Qed.

Lemma vanilla_classifier_stops_at_model_witness :
  (exists logits,
     vit_classifier_logits (fun y => y) (fun _ m => m) (fun scores => scores)
       tiny_config true tiny_weights sample_image = Ok [logits] /\
     Z.of_nat (length logits) = 3) /\
  vit_classifier (fun y => y) (fun _ m => m) (fun scores => scores)
    tiny_config true tiny_weights sample_image
  = Raise (TypeError "Keyword argument not understood: input").
Proof.
  apply (vanilla_classifier_stops_at_model (fun y => y) (fun _ m => m) (fun scores => scores)
           tiny_config tiny_weights sample_image 2 1 1 2);
    try reflexivity; try (cbn; lia);
    try (repeat constructor; cbn; lia).
Defined.

(** X23: [vit_classifier] never returns a model, in either mode and
    whatever the configuration, the weights and the image: an error of the
    layers stops it, or else its last statement does. *)
Theorem vit_classifier_never_returns
    (gelu : R -> R) (dropout : R -> matrix -> matrix)
    (dropout_layer : list matrix -> list matrix)
    (cfg : model_config) (vanilla : bool) (w : model_weights) (augumented : image) :
  exists e : exn,
    vit_classifier gelu dropout dropout_layer cfg vanilla w augumented = Raise e /\
    (forall logits,
       vit_classifier_logits gelu dropout dropout_layer cfg vanilla w augumented = Ok logits ->
       e = match keras (config_blocks cfg) with
           | Keras2 => TypeError "Keyword argument not understood: input"
           | Keras3 => ValueError "Unrecognized keyword arguments passed to Model: input"
           end) /\
    (forall e',
       vit_classifier_logits gelu dropout dropout_layer cfg vanilla w augumented = Raise e' ->
       e = e').
Proof.
  unfold vit_classifier.
  destruct (vit_classifier_logits _ _ _ _ _ _ _) as [logits | e']; run.
  - rewrite keras_Model_input. eexists. split; [reflexivity |].
    split; [reflexivity | discriminate].
  - exists e'. split; [reflexivity |]. split; [discriminate | now intros e [= ->]].
Qed.
